(** * resume-role-player: deduplication, staging and knowledge-base merge

    A shallow embedding of [src/dedup.py] (class [DuplicateResolver]),
    [src/staging.py], and [merge_into_kb] and [ingest_files] of
    [src/kb_ingest.py], together with
    the parts of the Python runtime these functions call ([str], [repr],
    [sorted], [hashlib.md5], [difflib.SequenceMatcher.ratio]).

    Conventions.
    - A Python [str] is a Rocq [string] whose characters are code points
      below 256; [encode('utf-8')] is written out for that range.
    - A Python [dict] whose insertion order is observable (an entry) is an
      association list with the dictionary operations written out; the
      staging directory, which is only read by key, is a [gmap].
    - A raised exception is the [Raise] branch of [result]. *)

From Stdlib Require Import ZArith List String Ascii Floats Uint63.
From stdpp Require Import base option list gmap strings sorting.

(* ===================================================================== *)
(** * The Python runtime fragment *)
(* ===================================================================== *)

Module Py.

(** Exceptions the modelled code can raise. *)
Inductive exn : Type :=
| TypeError
| ValueError (msg : string).

Inductive result (A : Type) : Type :=
| Ok (a : A)
| Raise (e : exn).
Arguments Ok {A} a.
Arguments Raise {A} e.

Definition bind {A B} (r : result A) (k : A -> result B) : result B :=
  match r with
  | Ok a => k a
  | Raise e => Raise e
  end.

#[global] Instance result_ret : MRet result := fun A a => Ok a.
#[global] Instance result_bind : MBind result := fun A B k r => bind r k.

Definition is_ok {A} (r : result A) : bool :=
  match r with Ok _ => true | Raise _ => false end.

(** [datetime.datetime], naive (no tzinfo), by its fields. *)
Record datetime : Type := mk_datetime {
  year : Z; month : Z; day : Z;
  hour : Z; minute : Z; second : Z; microsecond : Z
}.

(** [datetime.min] *)
Definition datetime_min : datetime := mk_datetime 1 1 1 0 0 0 0.

Definition datetime_fields (d : datetime) : list Z :=
  [year d; month d; day d; hour d; minute d; second d; microsecond d].

Fixpoint lex_gtb (xs ys : list Z) : bool :=
  match xs, ys with
  | x :: xs', y :: ys' =>
      if Z.ltb y x then true else if Z.ltb x y then false else lex_gtb xs' ys'
  | _ :: _, [] => true
  | [], _ => false
  end.

(** [d1 > d2] on naive datetimes. *)
Definition datetime_gtb (d1 d2 : datetime) : bool :=
  lex_gtb (datetime_fields d1) (datetime_fields d2).

(** The values an entry field can hold. *)
Inductive Value : Type :=
| VNone
| VInt (n : Z)
| VStr (s : string)
| VDatetime (d : datetime)
| VList (l : list string).

(** ** Decimal and hexadecimal digits *)

Definition digit_char (d : nat) : ascii := ascii_of_nat (48 + d).

Fixpoint nat_digits (fuel n : nat) (acc : list ascii) : list ascii :=
  match fuel with
  | O => acc
  | S fuel' =>
      let acc' := digit_char (n mod 10) :: acc in
      if Nat.ltb n 10 then acc' else nat_digits fuel' (n / 10) acc'
  end.

(** [str(n)] for a natural number. *)
Definition str_nat (n : nat) : list ascii := nat_digits (S n) n [].

(** [str(n)] for an integer. *)
Definition str_int (n : Z) : list ascii :=
  if Z.ltb n 0 then "-"%char :: str_nat (Z.to_nat (- n)) else str_nat (Z.to_nat n).

Fixpoint pad_left (width : nat) (l : list ascii) : list ascii :=
  if Nat.ltb (length l) width
  then match width with
       | O => l
       | S w => "0"%char :: pad_left w l
       end
  else l.

Definition hex_char (d : nat) : ascii :=
  if Nat.ltb d 10 then ascii_of_nat (48 + d) else ascii_of_nat (87 + d).

(** Two lower-case hexadecimal digits of a byte. *)
Definition hex2 (b : nat) : list ascii := [hex_char (b / 16); hex_char (b mod 16)].

(** ** [repr] and [str] *)

(** [str.isprintable] on one code point below 256. *)
Definition isprintable (c : nat) : bool :=
  negb (Nat.ltb c 32 || (Nat.leb 127 c && Nat.leb c 160) || Nat.eqb c 173).

Definition has_char (c : ascii) (s : list ascii) : bool :=
  existsb (Ascii.eqb c) s.

(** The quote [repr] picks: a double quote only when the text has a single
    quote and no double quote. *)
Definition dquote : ascii := ascii_of_nat 34.

Definition repr_quote (s : list ascii) : ascii :=
  if has_char "'"%char s && negb (has_char dquote s) then dquote else "'"%char.

Definition repr_char (q c : ascii) : list ascii :=
  let n := nat_of_ascii c in
  if Ascii.eqb c q || Ascii.eqb c "\"%char then ["\"%char; c]
  else if Nat.eqb n 9 then ["\"%char; "t"%char]
  else if Nat.eqb n 10 then ["\"%char; "n"%char]
  else if Nat.eqb n 13 then ["\"%char; "r"%char]
  else if isprintable n then [c]
  else "\"%char :: "x"%char :: hex2 n.

(** [repr(s)] for a [str]. *)
Definition repr_str (s : string) : list ascii :=
  let cs := list_ascii_of_string s in
  let q := repr_quote cs in
  q :: flat_map (repr_char q) cs ++ [q].

(** [sep.join(parts)] *)
Fixpoint join (sep : list ascii) (parts : list (list ascii)) : list ascii :=
  match parts with
  | [] => []
  | [p] => p
  | p :: rest => p ++ sep ++ join sep rest
  end.

Definition comma_sp : list ascii := [","%char; " "%char].

Definition chars (s : string) : list ascii := list_ascii_of_string s.

(** [repr(d)] for a datetime: trailing zero microsecond, then trailing zero
    second, are left out. *)
Definition repr_datetime (d : datetime) : list ascii :=
  let always := [year d; month d; day d; hour d; minute d] in
  let tail :=
    if Z.eqb (microsecond d) 0
    then (if Z.eqb (second d) 0 then [] else [second d])
    else [second d; microsecond d] in
  chars "datetime.datetime(" ++ join comma_sp (map str_int (always ++ tail)) ++ chars ")".

Definition zpad (w : nat) (n : Z) : list ascii := pad_left w (str_int n).

(** [str(d)] for a datetime: [isoformat(sep=' ')]. *)
Definition str_datetime (d : datetime) : list ascii :=
  zpad 4 (year d) ++ "-"%char :: zpad 2 (month d) ++ "-"%char :: zpad 2 (day d)
  ++ " "%char :: zpad 2 (hour d) ++ ":"%char :: zpad 2 (minute d)
  ++ ":"%char :: zpad 2 (second d)
  ++ (if Z.eqb (microsecond d) 0 then [] else "."%char :: zpad 6 (microsecond d)).

Definition repr_list (l : list string) : list ascii :=
  "["%char :: join comma_sp (map repr_str l) ++ ["]"%char].

Definition repr_value (v : Value) : list ascii :=
  match v with
  | VNone => chars "None"
  | VInt n => str_int n
  | VStr s => repr_str s
  | VDatetime d => repr_datetime d
  | VList l => repr_list l
  end.

(** [str(v)] *)
Definition str_value (v : Value) : string :=
  match v with
  | VStr s => s
  | VDatetime d => string_of_list_ascii (str_datetime d)
  | _ => string_of_list_ascii (repr_value v)
  end.

(** ** [encode('utf-8')], code points below 256 *)

Definition utf8_char (c : ascii) : list nat :=
  let n := nat_of_ascii c in
  if Nat.ltb n 128 then [n] else [192 + n / 64; 128 + n mod 64].

Definition encode_utf8 (s : list ascii) : list nat := flat_map utf8_char s.

(** ** [sorted] *)

(** [sorted(bs)] on a list of integers. *)
Definition sorted_nat (l : list nat) : list nat := merge_sort Nat.le l.

Definition str_le (s1 s2 : string) : Prop := String.leb s1 s2 = true.

#[global] Instance str_le_dec (s1 s2 : string) : Decision (str_le s1 s2).
Proof. unfold str_le. apply _. Defined.

(** [sorted(l)] on a list of [str]: code-point lexicographic order. *)
Definition sorted_str (l : list string) : list string := merge_sort str_le l.

(** [list(set(l))]: the distinct elements.  A set's iteration order is not
    specified; the model lists first occurrences, and every use sorts the
    result. *)
Definition list_set (l : list string) : list string := remove_dups l.

(** ** Operators *)

Fixpoint list_gtb (x y : list string) : bool :=
  match x, y with
  | a :: x', b :: y' =>
      if String.ltb b a then true else if String.ltb a b then false else list_gtb x' y'
  | _ :: _, [] => true
  | [], _ => false
  end.

(** [a > b].  Values of different kinds, and [None], do not compare. *)
Definition py_gt (a b : Value) : result bool :=
  match a, b with
  | VInt x, VInt y => Ok (Z.ltb y x)
  | VStr x, VStr y => Ok (String.ltb y x)
  | VDatetime x, VDatetime y => Ok (datetime_gtb x y)
  | VList x, VList y => Ok (list_gtb x y)
  | _, _ => Raise TypeError
  end.

(** [len(v)]: defined on strings and lists only. *)
Definition py_len (v : Value) : result nat :=
  match v with
  | VStr s => Ok (String.length s)
  | VList l => Ok (length l)
  | _ => Raise TypeError
  end.

(** [v + l] for a list [l]: list concatenation, a [TypeError] on anything
    that is not a list. *)
Definition py_add_list (v : Value) (l : list string) : result (list string) :=
  match v with
  | VList l0 => Ok (l0 ++ l)
  | _ => Raise TypeError
  end.

(** [a == b] on values. *)
Definition value_eqb (a b : Value) : bool :=
  match a, b with
  | VNone, VNone => true
  | VInt x, VInt y => Z.eqb x y
  | VStr x, VStr y => String.eqb x y
  | VDatetime x, VDatetime y =>
      forallb (fun p => Z.eqb (fst p) (snd p))
              (combine (datetime_fields x) (datetime_fields y))
  | VList x, VList y => bool_decide (x = y)
  | _, _ => false
  end.

(** ** Dictionaries with observable insertion order *)

Definition dict : Type := list (string * Value).

(** [d.get(k)] *)
Fixpoint dict_get (d : dict) (k : string) : option Value :=
  match d with
  | [] => None
  | (k', v) :: d' => if String.eqb k k' then Some v else dict_get d' k
  end.

(** [d.get(k, default)] *)
Definition dict_get_default (d : dict) (k : string) (default : Value) : Value :=
  match dict_get d k with Some v => v | None => default end.

(** [k in d] *)
Definition dict_contains (d : dict) (k : string) : bool :=
  match dict_get d k with Some _ => true | None => false end.

(** [d[k] = v]: an existing key keeps its position, a new one goes last. *)
Fixpoint dict_set (d : dict) (k : string) (v : Value) : dict :=
  match d with
  | [] => [(k, v)]
  | (k', v') :: d' =>
      if String.eqb k k' then (k', v) :: d' else (k', v') :: dict_set d' k v
  end.

(** [d1 == d2]: equal as mappings, whatever the insertion order. *)
Definition dict_eqb (d1 d2 : dict) : bool :=
  Nat.eqb (length d1) (length d2)
  && forallb (fun kv => match dict_get d2 (fst kv) with
                        | Some v => value_eqb (snd kv) v
                        | None => false
                        end) d1.

(** [repr((k, v))] *)
Definition repr_item (kv : string * Value) : list ascii :=
  "("%char :: repr_str (fst kv) ++ comma_sp ++ repr_value (snd kv) ++ [")"%char].

(** [str(d.items())] *)
Definition str_items (d : dict) : list ascii :=
  chars "dict_items([" ++ join comma_sp (map repr_item d) ++ chars "])".

(** [str(l)] for a list of integers. *)
Definition str_int_list (l : list nat) : list ascii :=
  "["%char :: join comma_sp (map str_nat l) ++ ["]"%char].

End Py.

(* ===================================================================== *)
(** * [hashlib.md5] (RFC 1321) *)
(* ===================================================================== *)

Module Hashlib.

Local Open Scope Z_scope.

Definition mask32 : Z := 0xffffffff.
Definition add32 (x y : Z) : Z := Z.land (x + y) mask32.
Definition not32 (x : Z) : Z := Z.lxor x mask32.
Definition rotl32 (x : Z) (n : Z) : Z :=
  Z.land (Z.lor (Z.shiftl x n) (Z.shiftr x (32 - n))) mask32.

(** Per-round shift amounts. *)
Definition md5_s : list Z :=
  [7; 12; 17; 22; 7; 12; 17; 22; 7; 12; 17; 22; 7; 12; 17; 22;
   5;  9; 14; 20; 5;  9; 14; 20; 5;  9; 14; 20; 5;  9; 14; 20;
   4; 11; 16; 23; 4; 11; 16; 23; 4; 11; 16; 23; 4; 11; 16; 23;
   6; 10; 15; 21; 6; 10; 15; 21; 6; 10; 15; 21; 6; 10; 15; 21].

(** [floor(2^32 * abs(sin(i + 1)))] *)
Definition md5_K : list Z :=
  [ 0xd76aa478; 0xe8c7b756; 0x242070db; 0xc1bdceee; 0xf57c0faf; 0x4787c62a; 0xa8304613; 0xfd469501;
    0x698098d8; 0x8b44f7af; 0xffff5bb1; 0x895cd7be; 0x6b901122; 0xfd987193; 0xa679438e; 0x49b40821;
    0xf61e2562; 0xc040b340; 0x265e5a51; 0xe9b6c7aa; 0xd62f105d; 0x02441453; 0xd8a1e681; 0xe7d3fbc8;
    0x21e1cde6; 0xc33707d6; 0xf4d50d87; 0x455a14ed; 0xa9e3e905; 0xfcefa3f8; 0x676f02d9; 0x8d2a4c8a;
    0xfffa3942; 0x8771f681; 0x6d9d6122; 0xfde5380c; 0xa4beea44; 0x4bdecfa9; 0xf6bb4b60; 0xbebfbc70;
    0x289b7ec6; 0xeaa127fa; 0xd4ef3085; 0x04881d05; 0xd9d4d039; 0xe6db99e5; 0x1fa27cf8; 0xc4ac5665;
    0xf4292244; 0x432aff97; 0xab9423a7; 0xfc93a039; 0x655b59c3; 0x8f0ccc92; 0xffeff47d; 0x85845dd1;
    0x6fa87e4f; 0xfe2ce6e0; 0xa3014314; 0x4e0811a1; 0xf7537e82; 0xbd3af235; 0x2ad7d2bb; 0xeb86d391 ].

Definition md5_state : Type := (Z * Z * Z * Z)%type.

Definition md5_init : md5_state := (0x67452301, 0xefcdab89, 0x98badcfe, 0x10325476).

(** Little-endian word of four bytes. *)
Definition word_le (bs : list Z) : Z :=
  fold_right (fun b acc => b + 256 * acc) 0 bs.

Fixpoint words_le (n : nat) (bs : list Z) : list Z :=
  match n with
  | O => []
  | S n' => word_le (firstn 4 bs) :: words_le n' (skipn 4 bs)
  end.

Definition md5_round (M : list Z) (st : md5_state) (i : nat) : md5_state :=
  let '(A, B, C, D) := st in
  let iz := Z.of_nat i in
  let '(F, g) :=
    if iz <? 16 then (Z.lor (Z.land B C) (Z.land (not32 B) D), iz)
    else if iz <? 32 then (Z.lor (Z.land D B) (Z.land (not32 D) C), (5 * iz + 1) mod 16)
    else if iz <? 48 then (Z.lxor (Z.lxor B C) D, (3 * iz + 5) mod 16)
    else (Z.lxor C (Z.lor B (not32 D)), (7 * iz) mod 16) in
  let F' := add32 (add32 (add32 F A) (nth i md5_K 0)) (nth (Z.to_nat g) M 0) in
  (D, add32 B (rotl32 F' (nth i md5_s 0)), B, C).

Definition md5_block (st : md5_state) (block : list Z) : md5_state :=
  let M := words_le 16 block in
  let '(A, B, C, D) := fold_left (md5_round M) (seq 0 64) st in
  let '(a0, b0, c0, d0) := st in
  (add32 a0 A, add32 b0 B, add32 c0 C, add32 d0 D).

Fixpoint le_bytes (n : nat) (x : Z) : list Z :=
  match n with
  | O => []
  | S n' => (x mod 256) :: le_bytes n' (x / 256)
  end.

(** The message, a [0x80] byte, zeros up to 56 mod 64, and the bit length
    as eight little-endian bytes. *)
Definition md5_pad (msg : list Z) : list Z :=
  let len := Z.of_nat (length msg) in
  let zeros := Z.to_nat ((55 - len) mod 64) in
  msg ++ [0x80] ++ repeat 0 zeros ++ le_bytes 8 (8 * len).

Fixpoint md5_blocks (n : nat) (st : md5_state) (bs : list Z) : md5_state :=
  match n with
  | O => st
  | S n' => md5_blocks n' (md5_block st (firstn 64 bs)) (skipn 64 bs)
  end.

Definition md5_digest (msg : list nat) : list Z :=
  let padded := md5_pad (map Z.of_nat msg) in
  let '(A, B, C, D) := md5_blocks (Nat.div (length padded) 64) md5_init padded in
  le_bytes 4 A ++ le_bytes 4 B ++ le_bytes 4 C ++ le_bytes 4 D.

(** [hashlib.md5(msg).hexdigest()] *)
Definition md5_hexdigest (msg : list nat) : string :=
  string_of_list_ascii (flat_map (fun b => Py.hex2 (Z.to_nat b)) (md5_digest msg)).

End Hashlib.

(* ===================================================================== *)
(** * [difflib.SequenceMatcher(None, a, b).ratio()] *)
(* ===================================================================== *)

Module Difflib.

Definition seqc : Type := list ascii.

Definition at_ (s : seqc) (i : nat) : ascii := nth i s Ascii.zero.

Definition count_char (c : ascii) (b : seqc) : nat :=
  length (filter (fun x => Ascii.eqb c x) b).

(** [autojunk]: with 200 or more elements in [b], an element that makes up
    more than 1% of them (plus one) is dropped from the index [b2j]. *)
Definition popular (b : seqc) (c : ascii) : bool :=
  let n := length b in
  Nat.leb 200 n && Nat.ltb (n / 100 + 1) (count_char c b).

Fixpoint indices_from (c : ascii) (b : seqc) (j : nat) : list nat :=
  match b with
  | [] => []
  | x :: b' => if Ascii.eqb c x then j :: indices_from c b' (S j) else indices_from c b' (S j)
  end.

(** [b2j.get(c, [])]: the positions of [c] in [b], ascending. *)
Definition b2j (b : seqc) (c : ascii) : list nat :=
  if popular b c then [] else indices_from c b 0.

Record Match : Type := mk_match { m_a : nat; m_b : nat; m_size : nat }.

(** [j2len.get(j - 1, 0)] *)
Definition j2len_prev (j2len : gmap nat nat) (j : nat) : nat :=
  match j with
  | O => 0
  | S j' => default 0 (j2len !! j')
  end.

(** The loop over [b2j[a[i]]] for one [i]. *)
Fixpoint scan_js (blo bhi i : nat) (j2len : gmap nat nat) (js : list nat)
    (newj2len : gmap nat nat) (best : Match) : gmap nat nat * Match :=
  match js with
  | [] => (newj2len, best)
  | j :: js' =>
      if Nat.ltb j blo then scan_js blo bhi i j2len js' newj2len best
      else if Nat.leb bhi j then (newj2len, best)
      else
        let k := j2len_prev j2len j + 1 in
        let best' := if Nat.ltb (m_size best) k
                     then mk_match (i + 1 - k) (j + 1 - k) k else best in
        scan_js blo bhi i j2len js' (<[j := k]> newj2len) best'
  end.

(** The loop over [i] in [range(alo, ahi)]. *)
Fixpoint scan_is (a b : seqc) (blo bhi : nat) (is_ : list nat)
    (j2len : gmap nat nat) (best : Match) : Match :=
  match is_ with
  | [] => best
  | i :: is' =>
      let '(newj2len, best') := scan_js blo bhi i j2len (b2j b (at_ a i)) ∅ best in
      scan_is a b blo bhi is' newj2len best'
  end.

(** Extension of the best block to the left, then to the right.  No
    element is junk ([isjunk] is [None]). *)
Fixpoint extend_left (fuel : nat) (a b : seqc) (alo blo : nat) (m : Match) : Match :=
  match fuel with
  | O => m
  | S fuel' =>
      if Nat.ltb alo (m_a m) && Nat.ltb blo (m_b m)
         && Ascii.eqb (at_ a (m_a m - 1)) (at_ b (m_b m - 1))
      then extend_left fuel' a b alo blo (mk_match (m_a m - 1) (m_b m - 1) (m_size m + 1))
      else m
  end.

Fixpoint extend_right (fuel : nat) (a b : seqc) (ahi bhi : nat) (m : Match) : Match :=
  match fuel with
  | O => m
  | S fuel' =>
      if Nat.ltb (m_a m + m_size m) ahi && Nat.ltb (m_b m + m_size m) bhi
         && Ascii.eqb (at_ a (m_a m + m_size m)) (at_ b (m_b m + m_size m))
      then extend_right fuel' a b ahi bhi (mk_match (m_a m) (m_b m) (m_size m + 1))
      else m
  end.

Definition find_longest_match (a b : seqc) (alo ahi blo bhi : nat) : Match :=
  let best := scan_is a b blo bhi (seq alo (ahi - alo)) ∅ (mk_match alo blo 0) in
  let best := extend_left (m_a best) a b alo blo best in
  extend_right ahi a b ahi bhi best.

(** The work list of [get_matching_blocks]; [queue.pop()] takes the entry
    appended last.  Every round either shrinks the list or matches at least
    one element, so [fuel] rounds of the loop are enough when [fuel] exceeds
    twice the length of [a]. *)
Fixpoint matching_blocks (fuel : nat) (a b : seqc)
    (queue : list (nat * nat * nat * nat)) (acc : list Match) : list Match :=
  match fuel with
  | O => acc
  | S fuel' =>
      match queue with
      | [] => acc
      | (alo, ahi, blo, bhi) :: rest =>
          let x := find_longest_match a b alo ahi blo bhi in
          let '(i, j, k) := (m_a x, m_b x, m_size x) in
          if Nat.eqb k 0 then matching_blocks fuel' a b rest acc
          else
            let q1 := if Nat.ltb alo i && Nat.ltb blo j
                      then [(alo, i, blo, j)] else [] in
            let q2 := if Nat.ltb (i + k) ahi && Nat.ltb (j + k) bhi
                      then [(i + k, ahi, j + k, bhi)] else [] in
            matching_blocks fuel' a b (q2 ++ q1 ++ rest) (x :: acc)
      end
  end.

Definition get_matching_blocks (a b : seqc) : list Match :=
  matching_blocks (2 * (length a + length b) + 1) a b [(0, length a, 0, length b)] [].

(** [sum(triple[-1] for triple in self.get_matching_blocks())] *)
Definition matches (a b : seqc) : nat :=
  foldr (fun m acc => m_size m + acc) 0 (get_matching_blocks a b).

Definition float_of_nat (n : nat) : float :=
  PrimFloat.of_uint63 (Uint63.of_Z (Z.of_nat n)).

(** [_calculate_ratio(matches, length)] *)
Definition calculate_ratio (m length : nat) : float :=
  if Nat.eqb length 0 then 1%float
  else PrimFloat.div (PrimFloat.mul 2%float (float_of_nat m)) (float_of_nat length).

Definition ratio (a b : string) : float :=
  let a' := list_ascii_of_string a in
  let b' := list_ascii_of_string b in
  calculate_ratio (matches a' b') (length a' + length b').

End Difflib.

(* ===================================================================== *)
(** * [src/dedup.py]: class [DuplicateResolver] *)
(* ===================================================================== *)

Module Dedup.
Import Py.

(** An entry is a [Dict[str, Any]]. *)
Definition Entry : Type := dict.

Record DuplicateResolver : Type := mk_resolver { similarity_threshold : float }.

(** [DuplicateResolver()]: the default threshold, the double nearest 0.85. *)
Definition default_resolver : DuplicateResolver := mk_resolver 0x1.b333333333333p-1%float.

(** [str(sorted(str(content.items()).encode('utf-8')))] *)
Definition content_str (content : Entry) : list ascii :=
  str_int_list (sorted_nat (encode_utf8 (str_items content))).

Definition get_content_hash (content : Entry) : string :=
  Hashlib.md5_hexdigest (encode_utf8 (content_str content)).

Definition text_similarity (text1 text2 : string) : float :=
  Difflib.ratio text1 text2.

Definition comparison_keys : list string :=
  ["title"; "description"; "summary"; "role"; "company"]%string.

(** First loop of [is_duplicate_entry]: the first entry with the same hash. *)
Fixpoint exact_match (new_hash : string) (existing_entries : list Entry) : option Entry :=
  match existing_entries with
  | [] => None
  | entry :: rest =>
      if String.eqb (get_content_hash entry) new_hash then Some entry
      else exact_match new_hash rest
  end.

(** The loop over the comparison keys: [(similarity_score, matches)]. *)
Fixpoint compare_fields (new_entry entry : Entry) (keys : list string)
    (similarity_score : float) (matches : nat) : float * nat :=
  match keys with
  | [] => (similarity_score, matches)
  | key :: keys' =>
      match dict_get new_entry key, dict_get entry key with
      | Some v1, Some v2 =>
          compare_fields new_entry entry keys'
            (PrimFloat.add similarity_score (text_similarity (str_value v1) (str_value v2)))
            (matches + 1)
      | _, _ => compare_fields new_entry entry keys' similarity_score matches
      end
  end.

(** The body of the second loop for one existing entry. *)
Definition fuzzy_match_one (self : DuplicateResolver) (new_entry entry : Entry) : bool :=
  let '(similarity_score, matches) := compare_fields new_entry entry comparison_keys 0%float 0 in
  if Nat.ltb 0 matches
  then
    let avg_similarity := PrimFloat.div similarity_score (Difflib.float_of_nat matches) in
    PrimFloat.ltb (similarity_threshold self) avg_similarity
  else false.

(** Second loop of [is_duplicate_entry]: the first entry that matches
    fuzzily. *)
Fixpoint fuzzy_match (self : DuplicateResolver) (new_entry : Entry)
    (existing_entries : list Entry) : option Entry :=
  match existing_entries with
  | [] => None
  | entry :: rest =>
      if fuzzy_match_one self new_entry entry then Some entry
      else fuzzy_match self new_entry rest
  end.

Definition is_duplicate_entry (self : DuplicateResolver) (new_entry : Entry)
    (existing_entries : list Entry) : bool * Entry :=
  let new_hash := get_content_hash new_entry in
  match exact_match new_hash existing_entries with
  | Some entry => (true, entry)
  | None =>
      match fuzzy_match self new_entry existing_entries with
      | Some entry => (true, entry)
      | None => (false, [])
      end
  end.

(** One round of the loop of [resolve_conflicts] over [new_entry.items()]. *)
Definition merge_field (resolved : Entry) (key : string) (value : Value) : result Entry :=
  match value with
  | VList l =>
      let existing_list := dict_get_default resolved key (VList []) in
      merged ← py_add_list existing_list l;
      Ok (dict_set resolved key (VList (sorted_str (list_set merged))))
  | VStr s =>
      let existing_text := dict_get_default resolved key (VStr EmptyString) in
      n ← py_len existing_text;
      Ok (if Nat.ltb n (String.length s) then dict_set resolved key (VStr s) else resolved)
  | _ => Ok resolved
  end.

Fixpoint merge_fields (items : list (string * Value)) (resolved : Entry) : result Entry :=
  match items with
  | [] => Ok resolved
  | (key, value) :: items' =>
      resolved' ← merge_field resolved key value;
      merge_fields items' resolved'
  end.

Definition resolve_conflicts (new_entry existing_entry : Entry) : result Entry :=
  let new_time := dict_get_default new_entry "timestamp" (VDatetime datetime_min) in
  let old_time := dict_get_default existing_entry "timestamp" (VDatetime datetime_min) in
  newer ← py_gt new_time old_time;
  let resolved := if newer : bool then new_entry else existing_entry in
  merge_fields new_entry resolved.

(** [l.index(x)]: the first position whose element equals [x]. *)
Fixpoint index (l : list Entry) (x : Entry) : result nat :=
  match l with
  | [] => Raise (ValueError "x is not in list")
  | y :: l' => if dict_eqb y x then Ok 0 else (i ← index l' x; Ok (S i))
  end.

Fixpoint dedup_loop (self : DuplicateResolver) (entries unique_entries : list Entry)
    : result (list Entry) :=
  match entries with
  | [] => Ok unique_entries
  | entry :: rest =>
      let '(is_duplicate, matching_entry) := is_duplicate_entry self entry unique_entries in
      if is_duplicate : bool
      then
        idx ← index unique_entries matching_entry;
        merged ← resolve_conflicts entry matching_entry;
        dedup_loop self rest (<[idx := merged]> unique_entries)
      else dedup_loop self rest (unique_entries ++ [entry])
  end.

Definition deduplicate_entries (self : DuplicateResolver) (entries : list Entry)
    : result (list Entry) :=
  dedup_loop self entries [].

End Dedup.

(* ===================================================================== *)
(** * JSON data: what the staging files and the knowledge base hold *)
(* ===================================================================== *)

Module Json.

(** A field value of a persisted entry: [null], a number, a text, or a
    sequence of texts. *)
Inductive value : Type :=
| Null
| Num (n : Z)
| Str (s : string)
| Arr (l : list string).

(** A JSON object, keys in file order. *)
Definition object : Type := list (string * value).

(** A member of one of the bundle's lists: a [dict], or something else. *)
Inductive item : Type :=
| Obj (o : object)
| Other (v : value).

Definition to_py (v : value) : Py.Value :=
  match v with
  | Null => Py.VNone
  | Num n => Py.VInt n
  | Str s => Py.VStr s
  | Arr l => Py.VList l
  end.

(** [o.get(k)] *)
Fixpoint get (o : object) (k : string) : option value :=
  match o with
  | [] => None
  | (k', v) :: o' => if String.eqb k k' then Some v else get o' k
  end.

(** [k in o] *)
Definition contains (o : object) (k : string) : bool :=
  match get o k with Some _ => true | None => false end.

(** [str(o)] for a [dict]. *)
Definition str_object (o : object) : string :=
  string_of_list_ascii
    ("{"%char :: Py.join Py.comma_sp
       (map (fun kv => Py.repr_str (fst kv) ++ [":"%char; " "%char]
                       ++ Py.repr_value (to_py (snd kv))) o)
     ++ ["}"%char]).

(** [str(p)] for a list member. *)
Definition str_item (p : item) : string :=
  match p with
  | Obj o => str_object o
  | Other v => Py.str_value (to_py v)
  end.

(** The state of one JSON file on disk. *)
Inductive file (A : Type) : Type :=
| Absent
| Corrupt
| Loaded (data : A).
Arguments Absent {A}.
Arguments Corrupt {A}.
Arguments Loaded {A} data.

(** [if path.exists(): try: data = json.load(f) except Exception: data = default] *)
Definition load_or {A} (default : A) (f : file A) : A :=
  match f with
  | Loaded data => data
  | Absent | Corrupt => default
  end.

End Json.

(* ===================================================================== *)
(** * [src/kb_ingest.py]: [merge_into_kb] *)
(* ===================================================================== *)

Module KbIngest.
Import Json.

(** The parsed bundle.  A key that is missing and a key whose value is
    empty are both falsy for [parsed.get(key)], and are the empty list or
    the empty text here. *)
Record ContentBundle : Type := mk_bundle {
  experience : list item;
  projects : list item;
  patents : list item;
  certifications : list item;
  summary : string
}.

(** [cv.json]: a key that is absent is [None].  A file that loads holds an
    object, and what it holds under [experience] is a list; on any other
    content [merge_into_kb] raises before it writes that file. *)
Record CvData : Type := mk_cv {
  cv_name : option value;
  cv_experience : option (list item);
  cv_summary : option value
}.

(** The four files under [KB_DIR].  [projects.json], [patents.json] and
    [certifications.json] hold one key each, which may be absent. *)
Record KB : Type := mk_kb {
  cv_json : file CvData;
  projects_json : file (option (list item));
  patents_json : file (option (list item));
  certifications_json : file (option (list item))
}.

Record Summary : Type := mk_summary {
  cv_added : nat;
  projects_added : nat;
  patents_added : nat;
  certs_added : nat
}.

(** A list or a text is truthy when it is not empty. *)
Definition truthy {A} (l : list A) : bool := negb (Nat.eqb (length l) 0).
Definition truthy_str (s : string) : bool := negb (String.eqb s EmptyString).

(** The entry appended to [pat_data['patents']] for [p]. *)
Definition normalize_patent (p : item) : item :=
  match p with
  | Obj o =>
      if contains o "title"
      then Obj [("title"%string, default Null (get o "title"));
                ("description"%string, default (Str EmptyString) (get o "description"));
                ("year"%string, default Null (get o "year"))]
      else Obj [("title"%string, Str (str_item p))]
  | Other _ => Obj [("title"%string, Str (str_item p))]
  end.

(** The entry appended to [cert_data['certifications']] for [c]. *)
Definition normalize_cert (c : item) : item :=
  match c with
  | Obj o => Obj [("name"%string, default Null (get o "title"))]
  | Other _ => Obj [("name"%string, Str (str_item c))]
  end.

(** [for x in xs: data.setdefault(key, []); data[key].append(f(x))] *)
Definition append_all (f : item -> item) (xs : list item)
    (data : option (list item)) : option (list item) :=
  foldl (fun d x => Some (default [] d ++ [f x])) data xs.

(** The [cv.json] step: [(file, cv_added)]. *)
Definition merge_cv (parsed : ContentBundle) (name_hint : option string)
    (f : file CvData) : file CvData * nat :=
  let cv_data := load_or (mk_cv None None None) f in
  if truthy_str (summary parsed) || truthy (experience parsed)
  then
    let name :=
      match cv_name cv_data with
      | Some n => n
      | None =>
          match name_hint with
          | Some h => if truthy_str h then Str h else Str EmptyString
          | None => Str EmptyString
          end
      end in
    let exp0 := default [] (cv_experience cv_data) in
    let exp1 := if truthy (experience parsed)
                then foldl (fun l exp => l ++ [exp]) exp0 (experience parsed)
                else exp0 in
    let added := if truthy (experience parsed) then length (experience parsed) else 0 in
    let summ := if truthy_str (summary parsed)
                then Some (Str (summary parsed)) else cv_summary cv_data in
    (Loaded (mk_cv (Some name) (Some exp1) summ), added)
  else (f, 0).

(** The step shared by the three one-key files: [(file, added)]. *)
Definition merge_collection (normalize : item -> item) (incoming : list item)
    (f : file (option (list item))) : file (option (list item)) * nat :=
  let data := load_or (Some []) f in
  if truthy incoming
  then (Loaded (append_all normalize incoming data), length incoming)
  else (f, 0).

Definition merge_into_kb (kb : KB) (parsed : ContentBundle) (name_hint : option string)
    : KB * Summary :=
  let '(cv', n_cv) := merge_cv parsed name_hint (cv_json kb) in
  let '(proj', n_proj) := merge_collection (fun p => p) (projects parsed) (projects_json kb) in
  let '(pat', n_pat) := merge_collection normalize_patent (patents parsed) (patents_json kb) in
  let '(cert', n_cert) :=
    merge_collection normalize_cert (certifications parsed) (certifications_json kb) in
  (mk_kb cv' proj' pat' cert', mk_summary n_cv n_proj n_pat n_cert).

(** The entries a collection file holds, as the merge reads it: none when
    the file is absent or unreadable, or when the key is missing. *)
Definition cv_entries (f : file CvData) : list item :=
  match f with
  | Loaded data => default [] (cv_experience data)
  | Absent | Corrupt => []
  end.

Definition collection_entries (f : file (option (list item))) : list item :=
  match f with
  | Loaded data => default [] data
  | Absent | Corrupt => []
  end.

End KbIngest.

(* ===================================================================== *)
(** * [src/staging.py] *)
(* ===================================================================== *)

Module Staging.
Import Json KbIngest.
Import Py (result, Ok, Raise, ValueError).

(** [metadata['status']]: one of the three texts the module writes. *)
Inductive Status : Type := Pending | Approved | Rejected.

#[global] Instance Status_eq_dec : EqDecision Status.
Proof. solve_decision. Defined.

(** An instant, in microseconds.  The files hold [isoformat()] texts and
    [cleanup_old_entries] reads them back with [fromisoformat]; on naive
    datetimes the two invert each other, and the instant stands for both. *)
Definition instant : Type := Z.

(** [metadata]: the three keys [stage_parsed_content] writes, and the keys
    [approve_staged_entry] and [reject_staged_entry] add ([None]: absent). *)
Record Metadata : Type := mk_metadata {
  timestamp : instant;
  source : object;
  status : Status;
  approved_at : option instant;
  rejected_at : option instant;
  rejection_reason : option string
}.

Record StageEntry : Type := mk_entry {
  content : ContentBundle;
  metadata : Metadata
}.

(** The two library functions [generate_stage_id] is built from:
    [json.dumps(_, sort_keys=True)] and [hashlib.sha256(_).hexdigest()]. *)
Class IdDigest : Type := {
  json_dumps : StageEntry -> string;
  sha256_hexdigest : string -> string
}.

(** The staging directory ([STAGING_DIR/<id>.json]) and the knowledge base. *)
Record State : Type := mk_state {
  staging_dir : gmap string StageEntry;
  kb : KB
}.

Section Operations.
Context {digest : IdDigest}.

Definition generate_stage_id (content : StageEntry) : string :=
  substring 0 12 (sha256_hexdigest (json_dumps content)).

Definition stage_parsed_content (dir : gmap string StageEntry)
    (parsed : ContentBundle) (source_info : object) (now : instant)
    : gmap string StageEntry * string :=
  let stage_entry := mk_entry parsed (mk_metadata now source_info Pending None None None) in
  let stage_id := generate_stage_id stage_entry in
  (<[stage_id := stage_entry]> dir, stage_id).

Definition get_staged_entry (dir : gmap string StageEntry) (stage_id : string)
    : option StageEntry :=
  dir !! stage_id.

Record Listed : Type := mk_listed {
  l_id : string;
  l_timestamp : instant;
  l_source : object;
  l_status : Status
}.

Definition newer_first (x y : Listed) : Prop := (l_timestamp y <= l_timestamp x)%Z.

#[global] Instance newer_first_dec x y : Decision (newer_first x y).
Proof. unfold newer_first. apply _. Defined.

(** The order among entries of one timestamp is the directory's, which
    nothing fixes; the model takes the map's. *)
Definition list_staged_entries (dir : gmap string StageEntry) (filter_ : option Status)
    : list Listed :=
  let entries :=
    omap (fun '(id, entry) =>
            let entry_status := status (metadata entry) in
            if match filter_ with
               | None => true
               | Some s => bool_decide (entry_status = s)
               end
            then Some (mk_listed id (timestamp (metadata entry))
                                 (source (metadata entry)) entry_status)
            else None)
         (map_to_list dir) in
  merge_sort newer_first entries.

Record Changes : Type := mk_changes {
  cv_changes : list item;
  projects_changes : list item;
  patents_changes : list item;
  certifications_changes : list item
}.

Definition not_found (stage_id : string) : Py.exn :=
  ValueError ("No staged entry found with ID: " +:+ stage_id).

Definition preview_merge_changes (dir : gmap string StageEntry) (stage_id : string)
    : result Changes :=
  match get_staged_entry dir stage_id with
  | None => Raise (not_found stage_id)
  | Some entry =>
      let c := content entry in
      let cv :=
        if truthy (experience c) || truthy_str (summary c)
        then experience c
             ++ (if truthy_str (summary c)
                 then [Obj [("summary"%string, Str (summary c))]] else [])
        else [] in
      Ok (mk_changes cv
            (if truthy (projects c) then projects c else [])
            (if truthy (patents c) then patents c else [])
            (if truthy (certifications c) then certifications c else []))
  end.

Record Approval : Type := mk_approval {
  a_stage_id : string;
  a_approved_at : instant;
  a_merge_summary : Summary
}.

Definition approve_staged_entry (st : State) (stage_id : string) (now : instant)
    : State * result Approval :=
  match get_staged_entry (staging_dir st) stage_id with
  | None => (st, Raise (not_found stage_id))
  | Some entry =>
      let m := metadata entry in
      if bool_decide (status m = Approved)
      then (st, Raise (ValueError ("Entry " +:+ stage_id +:+ " was already approved")))
      else
        let m' := mk_metadata (timestamp m) (source m) Approved (Some now)
                              (rejected_at m) (rejection_reason m) in
        let entry' := mk_entry (content entry) m' in
        let dir' := <[stage_id := entry']> (staging_dir st) in
        let '(kb', merge_summary) := merge_into_kb (kb st) (content entry') None in
        (mk_state dir' kb', Ok (mk_approval stage_id now merge_summary))
  end.

Record Rejection : Type := mk_rejection {
  r_stage_id : string;
  r_rejected_at : instant;
  r_reason : string
}.

Definition reject_staged_entry (dir : gmap string StageEntry) (stage_id reason : string)
    (now : instant) : gmap string StageEntry * result Rejection :=
  match get_staged_entry dir stage_id with
  | None => (dir, Raise (not_found stage_id))
  | Some entry =>
      let m := metadata entry in
      if bool_decide (status m = Rejected)
      then (dir, Raise (ValueError ("Entry " +:+ stage_id +:+ " was already rejected")))
      else
        let m' := mk_metadata (timestamp m) (source m) Rejected (approved_at m)
                              (Some now) (Some reason) in
        (<[stage_id := mk_entry (content entry) m']> dir,
         Ok (mk_rejection stage_id now reason))
  end.

Definition day_us : Z := 86400000000.

(** [(now - processed_date).days]: whole days, rounded down. *)
Definition age_days (now processed_date : instant) : Z :=
  ((now - processed_date) / day_us)%Z.

(** [metadata.get('approved_at') or metadata.get('rejected_at')] *)
Definition processed_at (m : Metadata) : option instant :=
  match approved_at m with
  | Some t => Some t
  | None => rejected_at m
  end.

(** Whether the loop body of [cleanup_old_entries] reaches [path.unlink()]. *)
Definition unlinks (max_age_days : Z) (now : instant) (entry : StageEntry) : bool :=
  match status (metadata entry) with
  | Pending => false
  | Approved | Rejected =>
      match processed_at (metadata entry) with
      | None => false
      | Some t => Z.ltb max_age_days (age_days now t)
      end
  end.

Fixpoint cleanup_loop (max_age_days : Z) (now : instant)
    (paths : list (string * StageEntry)) (dir : gmap string StageEntry) (removed : nat)
    : gmap string StageEntry * nat :=
  match paths with
  | [] => (dir, removed)
  | (id, entry) :: rest =>
      if unlinks max_age_days now entry
      then cleanup_loop max_age_days now rest (delete id dir) (removed + 1)
      else cleanup_loop max_age_days now rest dir removed
  end.

Definition cleanup_old_entries (dir : gmap string StageEntry) (max_age_days : Z)
    (now : instant) : gmap string StageEntry * nat :=
  cleanup_loop max_age_days now (map_to_list dir) dir 0.

(** ** Sequences of calls *)

Inductive Op : Type :=
| Stage (parsed : ContentBundle) (source_info : object) (now : instant)
| Get (stage_id : string)
| List_ (filter_ : option Status)
| Preview (stage_id : string)
| Approve (stage_id : string) (now : instant)
| Reject (stage_id reason : string) (now : instant)
| Cleanup (max_age_days : Z) (now : instant).

(** The state after one call, whether it returned or raised. *)
Definition step (st : State) (op : Op) : State :=
  match op with
  | Stage parsed source_info now =>
      mk_state (fst (stage_parsed_content (staging_dir st) parsed source_info now)) (kb st)
  | Get _ | List_ _ | Preview _ => st
  | Approve stage_id now => fst (approve_staged_entry st stage_id now)
  | Reject stage_id reason now =>
      mk_state (fst (reject_staged_entry (staging_dir st) stage_id reason now)) (kb st)
  | Cleanup max_age_days now =>
      mk_state (fst (cleanup_old_entries (staging_dir st) max_age_days now)) (kb st)
  end.

Definition run (st : State) (ops : list Op) : State := foldl step st ops.

(** The ids whose bundle a call hands to [merge_into_kb]: [approve] does,
    once it is past its two checks; no other call does. *)
Definition merges (st : State) (op : Op) : list string :=
  match op with
  | Approve stage_id now =>
      if Py.is_ok (snd (approve_staged_entry st stage_id now)) then [stage_id] else []
  | _ => []
  end.

(** The ids merged, in order, over a sequence of calls. *)
Fixpoint merged_during (st : State) (ops : list Op) : list string :=
  match ops with
  | [] => []
  | op :: rest => merges st op ++ merged_during (step st op) rest
  end.

End Operations.

End Staging.

(* ===================================================================== *)
(** * Measures for the work list of [get_matching_blocks] *)
(* ===================================================================== *)

Module DifflibData.
Import Difflib.

(** A block within [a[alo:ahi]]. *)
Definition in_range (alo ahi : nat) (m : Match) : Prop :=
  alo <= m_a m /\ m_a m + m_size m <= ahi.

(** What a work list can still cost: each entry is popped once, and each
    element of its range of [a] is matched at most once. *)
Definition weight (queue : list (nat * nat * nat * nat)) : nat :=
  foldr (fun q acc => 2 * (q.1.1.2 - q.1.1.1) + 1 + acc) 0 queue.

End DifflibData.

(* ===================================================================== *)
(** * Predicates and sample entries for [DuplicateResolver] *)
(* ===================================================================== *)

Module DedupData.
Import Py Dedup.
Local Open Scope string_scope.
Local Open Scope list_scope.

Definition title_company : Entry := [("title", VStr "A"); ("company", VStr "B")].
Definition company_title : Entry := [("company", VStr "B"); ("title", VStr "A")].

Definition entry_listen : Entry := [("title", VStr "listen")].
Definition entry_silent : Entry := [("title", VStr "silent")].



Definition engineer_old : Entry :=
  [("title", VStr "Engineer"); ("skills", VList ["Python"])].
Definition engineer_new : Entry :=
  [("title", VStr "Senior Engineer");
   ("timestamp", VDatetime (mk_datetime 2021 1 1 0 0 0 0));
   ("skills", VList ["Python"; "Java"])].


Definition none_title_a : Entry := [("title", VNone); ("company", VStr "Tech Corp")].

Definition swe (title company : string) : Entry :=
  [("title", VStr title); ("company", VStr company)].

Definition on_day (y m d : Z) : Value := VDatetime (mk_datetime y m d 0 0 0 0).

(** The two entries of [test_deduplication_with_merging]. *)
Definition swe_2020 : Entry :=
  [("title", VStr "Software Engineer"); ("skills", VList ["Python"; "Java"]);
   ("timestamp", on_day 2020 1 1)].
Definition swe_2021 : Entry :=
  [("title", VStr "Sr. Software Engineer"); ("skills", VList ["Python"; "Kubernetes"]);
   ("timestamp", on_day 2021 1 1)].

End DedupData.

(* ===================================================================== *)
(** * Predicates and sample records for the staging area *)
(* ===================================================================== *)

Module StagingData.
Import Json KbIngest Staging.
Import Py (result, Ok, Raise, ValueError).
Local Open Scope string_scope.
Local Open Scope list_scope.

(** Whether some path of the list names [id] and is unlinked. *)
Definition unlinked_in (max_age_days : Z) (now : instant)
    (paths : list (string * StageEntry)) (id : string) : bool :=
  existsb (fun kv => String.eqb kv.1 id && unlinks max_age_days now kv.2) paths.

(** The record [stage_parsed_content] writes. *)
Definition fresh_entry (parsed : ContentBundle) (source_info : object) (now : instant)
    : StageEntry :=
  mk_entry parsed (mk_metadata now source_info Pending None None None).

Definition already (stage_id what : string) : Py.exn :=
  ValueError ("Entry " +:+ stage_id +:+ " was already " +:+ what).

(** The record [approve_staged_entry] writes back. *)
Definition approved_entry (e : StageEntry) (now : instant) : StageEntry :=
  mk_entry (content e)
    (mk_metadata (timestamp (metadata e)) (source (metadata e)) Approved (Some now)
                 (rejected_at (metadata e)) (rejection_reason (metadata e))).

(** The record [reject_staged_entry] writes back. *)
Definition rejected_entry (e : StageEntry) (reason : string) (now : instant) : StageEntry :=
  mk_entry (content e)
    (mk_metadata (timestamp (metadata e)) (source (metadata e)) Rejected
                 (approved_at (metadata e)) (Some now) (Some reason)).

Definition is_approve (op : Op) : bool :=
  match op with Approve _ _ => true | _ => false end.

(** A stand-in for the two library functions, enough to run the operations:
    every entry is serialised to the empty text, whose SHA-256 digest this
    is.  The runs that use it stage one bundle, so that no two ids are
    compared. *)
Definition empty_text_digest : IdDigest := {|
  json_dumps := fun _ => EmptyString;
  sha256_hexdigest := fun _ =>
    "e3b0c44298fc1c149afbf4c8996fb92427ae41e4649b934ca495991b7852b855"
|}.

Definition compiler_project : item :=
  Obj [("title", Str "Compiler"); ("description", Str "A verified compiler")].

Definition demo_bundle : ContentBundle := mk_bundle [] [compiler_project] [] [] EmptyString.

Definition demo_source : object := [("files", Arr ["cv.pdf"]); ("linkedin_url", Null)].

Definition empty_kb : KB := mk_kb Absent Absent Absent Absent.

Definition demo_id : string := "e3b0c44298fc".

(** The bundle staged at instant 0. *)
Definition dir_staged : gmap string StageEntry :=
  (stage_parsed_content (digest := empty_text_digest) ∅ demo_bundle demo_source 0%Z).1.

(** Then rejected at instant 1. *)
Definition dir_rejected : gmap string StageEntry :=
  (reject_staged_entry dir_staged demo_id "not mine" 1%Z).1.

(** Or approved at instant 1. *)
Definition st_approved : State :=
  (approve_staged_entry (mk_state dir_staged empty_kb) demo_id 1%Z).1.

End StagingData.

(* ===================================================================== *)
(** * Further predicates on entries *)
(* ===================================================================== *)

Module DedupMoreData.
Import Py Dedup.

(** Neither a list nor a text: a value the loop of [resolve_conflicts]
    passes over. *)
Definition passed_over (v : option Value) : bool :=
  match v with
  | Some (VList _) | Some (VStr _) => false
  | _ => true
  end.

(** [new_time > old_time] in [resolve_conflicts]. *)
Definition incoming_newer (new_entry existing_entry : Entry) : result bool :=
  py_gt (dict_get_default new_entry "timestamp" (VDatetime datetime_min))
        (dict_get_default existing_entry "timestamp" (VDatetime datetime_min)).

Definition with_year : Entry :=
  [("title"%string, VStr "Engineer"); ("year"%string, VInt 2021)].
Definition with_company : Entry :=
  [("title"%string, VStr "Engineer"); ("company"%string, VStr "Tech Corp")].

End DedupMoreData.

(* ===================================================================== *)
(** * What a matching block is *)
(* ===================================================================== *)

Module DifflibMoreData.
Import Difflib.

(** A block within [b[blo:bhi]]. *)
Definition in_range_b (blo bhi : nat) (m : Match) : Prop :=
  blo <= m_b m /\ m_b m + m_size m <= bhi.

(** The block pairs equal elements: [a[i + d] == b[j + d]] for [d < k]. *)
Definition block_matches (a b : seqc) (m : Match) : Prop :=
  forall d, d < m_size m -> at_ a (m_a m + d) = at_ b (m_b m + d).

(** A block found in the ranges [a[alo:ahi]] and [b[blo:bhi]]. *)
Definition good_block (a b : seqc) (alo ahi blo bhi : nat) (m : Match) : Prop :=
  (alo <= m_a m /\ m_a m + m_size m <= ahi)
  /\ in_range_b blo bhi m
  /\ block_matches a b m.

Definition size_sum (blocks : list Match) : nat :=
  foldr (fun m acc => m_size m + acc) 0 blocks.

(** What is left of [a], and of [b], in the ranges of a work list. *)
Definition room_a (queue : list (nat * nat * nat * nat)) : nat :=
  foldr (fun q acc => (q.1.1.2 - q.1.1.1) + acc) 0 queue.
Definition room_b (queue : list (nat * nat * nat * nat)) : nat :=
  foldr (fun q acc => (q.2 - q.1.2) + acc) 0 queue.

(** A range of the work list lies within the two sequences. *)
Definition range_ok (a b : seqc) (q : nat * nat * nat * nat) : Prop :=
  q.1.1.1 <= q.1.1.2 <= length a /\ q.1.2 <= q.2 <= length b.

(** A block within the two sequences that pairs equal elements. *)
Definition block_ok (a b : seqc) (m : Match) : Prop :=
  m_a m + m_size m <= length a /\ m_b m + m_size m <= length b /\ block_matches a b m.

(** What [j2len] records before row [i] of [find_longest_match]: runs of
    equal elements that end at row [i - 1]. *)
Definition runs_before (a b : seqc) (alo blo bhi : nat)
    (i : nat) (j2len : gmap nat nat) : Prop :=
  forall j k, j2len !! j = Some k ->
    blo <= j < bhi /\ 1 <= k /\ k <= j + 1 - blo /\ k <= i - alo
    /\ forall d, d < k -> at_ a (i - 1 - d) = at_ b (j - d).

(** What [newj2len] records in row [i]: runs that end at row [i]. *)
Definition runs_at (a b : seqc) (alo blo bhi : nat)
    (i : nat) (newj2len : gmap nat nat) : Prop :=
  forall j k, newj2len !! j = Some k ->
    blo <= j < bhi /\ 1 <= k /\ k <= j + 1 - blo /\ k <= i + 1 - alo
    /\ forall d, d < k -> at_ a (i - d) = at_ b (j - d).

End DifflibMoreData.

(* ===================================================================== *)
(** * [src/kb_ingest.py]: [ingest_files] *)
(* ===================================================================== *)

Module Ingest.
Import Json KbIngest Staging.
Local Open Scope string_scope.
Local Open Scope list_scope.

(** What [fetch_linkedin_profile] returns: a dict that holds [error], or
    the fields it could extract ([None]: the key is absent). *)
Record LinkedIn : Type := mk_linkedin {
  li_error : option string;
  li_name : option string;
  li_headline : option string;
  li_about : option string;
  li_recent_activity : option (list string)
}.

(** What the [try] block of the loop over [file_paths] comes to for one
    file: the sections [parse_sections] returns (a dict with the four lists
    and the summary text), or the text of the exception raised on the way. *)
Inductive FileOutcome : Type :=
| Parsed (file_content : ContentBundle)
| Failed (e : string).

(** What [ingest_files] returns.  The two [except] branches around the
    staging and the merge are for failures of the file system, which the
    staging area and the knowledge base of this development do not have. *)
Inductive Result : Type :=
| Staged (stage_id : string) (warnings : list string) (linkedin : option LinkedIn)
         (message : string)
| Merged (merge_summary : Summary) (warnings : list string) (linkedin : option LinkedIn).

Definition present {A} (o : option A) : bool :=
  match o with Some _ => true | None => false end.

(** [bool(linkedin_data)]: the dict is not empty. *)
Definition li_truthy (d : LinkedIn) : bool :=
  present (li_error d) || present (li_name d) || present (li_headline d)
  || present (li_about d) || present (li_recent_activity d).

(** [d.get(key)] for a text, as a condition. *)
Definition get_truthy (o : option string) : bool :=
  match o with Some s => truthy_str s | None => false end.

(** The loop [for key in parsed_content]: a list is extended, the summary
    is replaced when the file has one. *)
Definition absorb (parsed_content file_content : ContentBundle) : ContentBundle :=
  mk_bundle (experience parsed_content ++ experience file_content)
            (projects parsed_content ++ projects file_content)
            (patents parsed_content ++ patents file_content)
            (certifications parsed_content ++ certifications file_content)
            (if truthy_str (summary file_content) then summary file_content
             else summary parsed_content).

Definition opt_str (o : option string) : value :=
  match o with Some s => Str s | None => Null end.

Definition staged_message : string :=
  "Content staged for review. Use the admin interface to approve or reject.".

Section IngestFiles.
Context {digest : IdDigest}.

(** [extract_text_from_file], [sanitize_text] and [parse_sections] on one
    path, and [fetch_linkedin_profile] on a URL: they read files and the
    network. *)
Variable read_and_parse : string -> FileOutcome.
Variable fetch_linkedin_profile : string -> LinkedIn.

(** The loop over [file_paths]. *)
Fixpoint read_files (file_paths : list string) (parsed_content : ContentBundle)
    (warnings : list string) : ContentBundle * list string :=
  match file_paths with
  | [] => (parsed_content, warnings)
  | fp :: rest =>
      match read_and_parse fp with
      | Parsed file_content => read_files rest (absorb parsed_content file_content) warnings
      | Failed e =>
          read_files rest parsed_content
            (warnings ++ ["Failed to extract " +:+ fp +:+ ": " +:+ e])
      end
  end.

(** The block under [if linkedin_data and 'error' not in linkedin_data]. *)
Definition merge_linkedin (parsed : ContentBundle) (linkedin_data : LinkedIn)
    : ContentBundle :=
  if li_truthy linkedin_data && negb (present (li_error linkedin_data))
  then
    let parsed1 :=
      if negb (truthy_str (summary parsed)) && get_truthy (li_about linkedin_data)
      then mk_bundle (experience parsed) (projects parsed) (patents parsed)
                     (certifications parsed) (default EmptyString (li_about linkedin_data))
      else parsed in
    if get_truthy (li_headline linkedin_data) && negb (truthy (experience parsed1))
    then mk_bundle (experience parsed1
                    ++ [Obj [("title", opt_str (li_headline linkedin_data))]])
                   (projects parsed1) (patents parsed1) (certifications parsed1)
                   (summary parsed1)
    else parsed1
  else parsed.

(** The bundle, the warnings and the LinkedIn data [ingest_files] has in
    hand when it reaches [if use_staging]. *)
Definition gather (file_paths : list string) (linkedin_url : option string)
    : ContentBundle * list string * option LinkedIn :=
  let '(parsed, warnings) :=
    read_files file_paths (mk_bundle [] [] [] [] EmptyString) [] in
  if get_truthy linkedin_url
  then
    let linkedin_data := fetch_linkedin_profile (default EmptyString linkedin_url) in
    (merge_linkedin parsed linkedin_data, warnings, Some linkedin_data)
  else (parsed, warnings, None).

Definition source_info (file_paths : list string) (linkedin_url name_hint : option string)
    : object :=
  [("files", Arr file_paths); ("linkedin_url", opt_str linkedin_url);
   ("name_hint", opt_str name_hint)].

Definition ingest_files (st : State) (file_paths : list string)
    (linkedin_url name_hint : option string) (use_staging : bool) (now : instant)
    : State * Result :=
  let '(parsed, warnings, linkedin_data) := gather file_paths linkedin_url in
  if use_staging
  then
    let '(dir', stage_id) :=
      stage_parsed_content (staging_dir st) parsed
        (source_info file_paths linkedin_url name_hint) now in
    (mk_state dir' (kb st), Staged stage_id warnings linkedin_data staged_message)
  else
    let '(kb', merge_summary) := merge_into_kb (kb st) parsed name_hint in
    (mk_state (staging_dir st) kb', Merged merge_summary warnings linkedin_data).

End IngestFiles.

End Ingest.

(* ===================================================================== *)
(** * What the files of a call contribute *)
(* ===================================================================== *)

Module IngestData.
Import Json KbIngest Staging Ingest.
Local Open Scope string_scope.
Local Open Scope list_scope.

(** The sections of the files that could be read, in the order of the call. *)
Definition parsed_of (read_and_parse : string -> FileOutcome) (file_paths : list string)
    : list ContentBundle :=
  omap (fun fp => match read_and_parse fp with
                  | Parsed c => Some c
                  | Failed _ => None
                  end) file_paths.

(** One warning for each file that could not be read. *)
Definition warnings_of (read_and_parse : string -> FileOutcome) (file_paths : list string)
    : list string :=
  omap (fun fp => match read_and_parse fp with
                  | Parsed _ => None
                  | Failed e => Some ("Failed to extract " +:+ fp +:+ ": " +:+ e)
                  end) file_paths.

(** The last text of the list that is not empty, or the empty text. *)
Definition last_nonempty (texts : list string) : string :=
  foldl (fun acc s => if truthy_str s then s else acc) EmptyString texts.

(** The bundle the files of a call add up to: each list is the lists of
    the files that could be read, one after the other. *)
Definition files_bundle (read_and_parse : string -> FileOutcome)
    (file_paths : list string) : ContentBundle :=
  let files := parsed_of read_and_parse file_paths in
  mk_bundle (concat (experience <$> files)) (concat (projects <$> files))
            (concat (patents <$> files)) (concat (certifications <$> files))
            (last_nonempty (summary <$> files)).

(** Two files and a profile, for the runs below. *)
Definition cv_txt : ContentBundle :=
  mk_bundle [Obj [("title", Str "Engineer")]] [] [] [] "Builds compilers".
Definition projects_txt : ContentBundle :=
  mk_bundle [] [Obj [("title", Str "Compiler")]] [] [] EmptyString.

Definition demo_read (fp : string) : FileOutcome :=
  if String.eqb fp "cv.txt" then Parsed cv_txt
  else if String.eqb fp "projects.txt" then Parsed projects_txt
  else Failed ("File not found: " +:+ fp).

Definition gated_profile : LinkedIn :=
  mk_linkedin (Some "LinkedIn appears to require login to view this profile")
              None None None None.

Definition demo_fetch (url : string) : LinkedIn := gated_profile.

End IngestData.

(* ===================================================================== *)
(** * Shapes of stored entries, kinds of staging calls *)
(* ===================================================================== *)

Module KbIngestMoreData.
Import Json KbIngest.
Local Open Scope string_scope.
Local Open Scope list_scope.

(** A patent entry as [merge_into_kb] stores it: a dict with a title. *)
Definition has_title (p : item) : Prop :=
  match p with
  | Obj o => contains o "title" = true
  | Other _ => False
  end.

(** A certification entry as [merge_into_kb] stores it: a dict with the one
    key [name]. *)
Definition only_name (c : item) : Prop :=
  exists v, c = Obj [("name", v)].

(** [p.get('title')] on a list member. *)
Definition title_of (p : item) : option value :=
  match p with
  | Obj o => get o "title"
  | Other _ => None
  end.

End KbIngestMoreData.

Module StagingMoreData.
Import Json KbIngest Staging.
Local Open Scope string_scope.
Local Open Scope list_scope.

Definition is_stage (op : Op) : bool :=
  match op with Stage _ _ _ => true | _ => false end.

(** The line of [list_staged_entries] for the record [entry] under [id]. *)
Definition listing (id : string) (entry : StageEntry) : Listed :=
  mk_listed id (timestamp (metadata entry)) (source (metadata entry))
            (status (metadata entry)).

(** [status is None or entry_status == status] *)
Definition passes (filter_ : option Status) (entry : StageEntry) : Prop :=
  match filter_ with
  | None => True
  | Some s => status (metadata entry) = s
  end.

(** What the staged record keeps through every later call: the bundle, and
    the two fields written at staging time. *)
Definition same_submission (e e' : StageEntry) : Prop :=
  content e' = content e
  /\ timestamp (metadata e') = timestamp (metadata e)
  /\ source (metadata e') = source (metadata e).

End StagingMoreData.

(* ===================================================================== *)
(** * The work list of [get_matching_blocks] runs out before its fuel *)
(* ===================================================================== *)

Module DifflibSpec.
Import Difflib DifflibData.

Section Bounds.
Variables (a b : seqc) (alo ahi blo bhi : nat).

Lemma scan_js_bounds (i : nat) (j2len : gmap nat nat) (js : list nat)
    (newj2len : gmap nat nat) (best : Match) :
  alo <= i < ahi ->
  (forall j k, j2len !! j = Some k -> k <= i - alo) ->
  (forall j k, newj2len !! j = Some k -> k <= i + 1 - alo) ->
  in_range alo ahi best ->
  let r := scan_js blo bhi i j2len js newj2len best in
  (forall j k, r.1 !! j = Some k -> k <= i + 1 - alo) /\ in_range alo ahi r.2.
Proof.
  intros Hi Hold. revert newj2len best.
  induction js as [|j js IH]; intros newj2len best Hnew Hbest; cbn [scan_js].
  - by split.
  - destruct (Nat.ltb j blo); [by apply IH|].
    destruct (Nat.leb bhi j); [by split|].
    assert (Hk : j2len_prev j2len j + 1 <= i + 1 - alo).
    { unfold j2len_prev. destruct j as [|j']; [lia|].
      destruct (j2len !! j') as [k|] eqn:E; cbn; [|lia].
      specialize (Hold _ _ E). lia. }
    apply IH.
    + intros j0 k0. rewrite lookup_insert. case_decide.
      * intros [= <-]. exact Hk.
      * apply Hnew.
    + destruct (Nat.ltb _ _); [|exact Hbest].
      unfold in_range. cbn. lia.
Qed.

Lemma scan_is_bounds (n i0 : nat) (j2len : gmap nat nat) (best : Match) :
  alo <= i0 -> i0 + n <= ahi ->
  (forall j k, j2len !! j = Some k -> k <= i0 - alo) ->
  in_range alo ahi best ->
  in_range alo ahi (scan_is a b blo bhi (seq i0 n) j2len best).
Proof.
  revert i0 j2len best. induction n as [|n IH]; intros i0 j2len best H0 Hn Hold Hbest.
  - exact Hbest.
  - cbn [seq scan_is].
    pose proof (scan_js_bounds i0 j2len (b2j b (at_ a i0)) ∅ best ltac:(lia) Hold
                  ltac:(intros j k; by rewrite lookup_empty) Hbest) as [Hnew Hbest'].
    destruct (scan_js blo bhi i0 j2len (b2j b (at_ a i0)) ∅ best) as [newj2len best'].
    cbn [fst snd] in Hnew, Hbest'.
    apply IH; [lia | lia | | exact Hbest'].
    intros j k Hjk. specialize (Hnew j k Hjk). lia.
Qed.

Lemma extend_left_bounds (fuel : nat) (m : Match) :
  in_range alo ahi m -> in_range alo ahi (extend_left fuel a b alo blo m).
Proof.
  revert m. induction fuel as [|fuel IH]; intros m Hm; cbn [extend_left]; [exact Hm|].
  destruct (Nat.ltb alo (m_a m)) eqn:E1; cbn [andb]; [|exact Hm].
  destruct (Nat.ltb blo (m_b m) && _); [|exact Hm].
  apply IH. apply Nat.ltb_lt in E1. unfold in_range in *. cbn. lia.
Qed.

Lemma extend_right_bounds (fuel : nat) (m : Match) :
  in_range alo ahi m -> in_range alo ahi (extend_right fuel a b ahi bhi m).
Proof.
  revert m. induction fuel as [|fuel IH]; intros m Hm; cbn [extend_right]; [exact Hm|].
  destruct (Nat.ltb (m_a m + m_size m) ahi) eqn:E1; cbn [andb]; [|exact Hm].
  destruct (Nat.ltb (m_b m + m_size m) bhi && _); [|exact Hm].
  apply IH. apply Nat.ltb_lt in E1. unfold in_range in *. cbn. lia.
Qed.

(** The block found lies within [a[alo:ahi]]. *)
Lemma find_longest_match_bounds :
  alo <= ahi -> in_range alo ahi (find_longest_match a b alo ahi blo bhi).
Proof.
  intros Hle. unfold find_longest_match.
  apply extend_right_bounds, extend_left_bounds, scan_is_bounds.
  - lia.
  - lia.
  - intros j k. by rewrite lookup_empty.
  - unfold in_range. cbn. lia.
Qed.

End Bounds.

Lemma weight_cons (q : nat * nat * nat * nat) (qs : list (nat * nat * nat * nat)) :
  weight (q :: qs) = 2 * (q.1.1.2 - q.1.1.1) + 1 + weight qs.
Proof. reflexivity. Qed.

Lemma weight_app (q1 q2 : list (nat * nat * nat * nat)) :
  weight (q1 ++ q2) = weight q1 + weight q2.
Proof.
  induction q1 as [|q q1 IH]; [reflexivity|].
  rewrite <- app_comm_cons, !weight_cons, IH. lia.
Qed.

(** Whatever fuel covers the weight of the work list gives the same blocks. *)
Lemma matching_blocks_fuel (a b : seqc) (fuel fuel' : nat)
    (queue : list (nat * nat * nat * nat)) (acc : list Match) :
  Forall (fun q => q.1.1.1 <= q.1.1.2) queue ->
  weight queue <= fuel -> weight queue <= fuel' ->
  matching_blocks fuel a b queue acc = matching_blocks fuel' a b queue acc.
Proof.
  revert fuel' queue acc.
  induction fuel as [|fuel IH]; intros fuel' queue acc Hwf Hf Hf'.
  - destruct queue as [|[[[alo ahi] blo] bhi] rest]; [by destruct fuel'|].
    rewrite weight_cons in Hf. lia.
  - destruct queue as [|[[[alo ahi] blo] bhi] rest]; [by destruct fuel'|].
    destruct fuel' as [|fuel']; [rewrite weight_cons in Hf'; lia|].
    apply Forall_cons in Hwf as [Hle Hwf]. cbn in Hle.
    cbn [matching_blocks].
    pose proof (find_longest_match_bounds a b alo ahi blo bhi Hle) as [Hlo Hhi].
    set (x := find_longest_match a b alo ahi blo bhi) in *.
    rewrite weight_cons in Hf, Hf'. cbn [fst snd] in Hf, Hf'.
    destruct (Nat.eqb (m_size x) 0) eqn:Ek.
    + apply IH; [exact Hwf | lia | lia].
    + apply Nat.eqb_neq in Ek.
      assert (Hw : weight
                ((if Nat.ltb (m_a x + m_size x) ahi && Nat.ltb (m_b x + m_size x) bhi
                  then [(m_a x + m_size x, ahi, m_b x + m_size x, bhi)] else [])
                 ++ (if Nat.ltb alo (m_a x) && Nat.ltb blo (m_b x)
                     then [(alo, m_a x, blo, m_b x)] else [])
                 ++ rest) + 1 <= 2 * (ahi - alo) + 1 + weight rest).
      { rewrite !weight_app.
        destruct (Nat.ltb (m_a x + m_size x) ahi && _),
                 (Nat.ltb alo (m_a x) && _); cbn; lia. }
      apply IH; [| lia | lia].
      apply Forall_app. split; [|apply Forall_app; split; [|exact Hwf]].
      * destruct (Nat.ltb (m_a x + m_size x) ahi) eqn:E; cbn [andb]; [|constructor].
        destruct (Nat.ltb _ bhi); [|constructor].
        apply Nat.ltb_lt in E. repeat constructor. cbn. lia.
      * destruct (Nat.ltb alo (m_a x)) eqn:E; cbn [andb]; [|constructor].
        destruct (Nat.ltb blo _); [|constructor].
        repeat constructor. cbn. lia.
Qed.

(** The fuel of [get_matching_blocks] is never used up: any greater
    amount gives the same blocks. *)
Lemma get_matching_blocks_fuel (a b : seqc) (extra : nat) :
  get_matching_blocks a b
  = matching_blocks (2 * (length a + length b) + 1 + extra) a b
      [(0, length a, 0, length b)] [].
Proof.
  unfold get_matching_blocks. apply matching_blocks_fuel.
  - repeat constructor. cbn. lia.
  - cbn. lia.
  - cbn. lia.
Qed.

(** Checked against [difflib] itself. *)
Example ratio_examples :
  matches (Py.chars "Senior Software Engineer") (Py.chars "Sr. Software Engineer") = 20
  /\ matches (Py.chars "Software Engineer") (Py.chars "Sr. Software Engineer") = 17
  /\ matches (Py.chars "Tech Corp") (Py.chars "Different Corp") = 6
  /\ ratio "None" "None" = 1%float
  /\ ratio EmptyString EmptyString = 1%float
  /\ ratio "abc" EmptyString = 0%float.
Proof. repeat split; vm_compute; reflexivity. Qed.

End DifflibSpec.

(* ===================================================================== *)
(** * Properties of [DuplicateResolver] *)
(* ===================================================================== *)

Module DedupSpec.
Import Py Dedup DedupData.
Local Open Scope string_scope.
Local Open Scope list_scope.

(** ** Sorting erases the order of the bytes *)

Lemma sorted_nat_perm (l1 l2 : list nat) :
  l1 ≡ₚ l2 -> sorted_nat l1 = sorted_nat l2.
Proof.
  intros Hp. unfold sorted_nat.
  apply (Sorted_unique Nat.le).
  - apply Sorted_merge_sort. intros x y. unfold Nat.le. lia.
  - apply Sorted_merge_sort. intros x y. unfold Nat.le. lia.
  - rewrite !merge_sort_Permutation. exact Hp.
Qed.

Lemma join_as_concat (sep : list ascii) (parts : list (list ascii)) :
  join sep parts ≡ₚ concat parts ++ concat (replicate (pred (length parts)) sep).
Proof.
  induction parts as [|p rest IH]; [reflexivity|].
  destruct rest as [|q rest].
  - simpl. by rewrite !app_nil_r.
  - change (join sep (p :: q :: rest)) with (p ++ sep ++ join sep (q :: rest)).
    rewrite IH.
    change (concat (p :: q :: rest)) with (p ++ concat (q :: rest)).
    change (replicate (pred (length (p :: q :: rest))) sep)
      with (sep :: replicate (pred (length (q :: rest))) sep).
    change (concat (sep :: ?l)) with (sep ++ concat l).
    rewrite <- !app_assoc. apply Permutation_app_head.
    rewrite !app_assoc. apply Permutation_app_tail, Permutation_app_comm.
Qed.

Lemma concat_perm (l1 l2 : list (list ascii)) :
  l1 ≡ₚ l2 -> concat l1 ≡ₚ concat l2.
Proof.
  induction 1; simpl.
  - reflexivity.
  - by apply Permutation_app_head.
  - rewrite !app_assoc. apply Permutation_app_tail, Permutation_app_comm.
  - etransitivity; eassumption.
Qed.

Lemma join_perm (sep : list ascii) (l1 l2 : list (list ascii)) :
  l1 ≡ₚ l2 -> join sep l1 ≡ₚ join sep l2.
Proof.
  intros Hp. rewrite !join_as_concat.
  rewrite (Permutation_length Hp). apply Permutation_app_tail, concat_perm, Hp.
Qed.

Lemma encode_utf8_perm (s1 s2 : list ascii) :
  s1 ≡ₚ s2 -> encode_utf8 s1 ≡ₚ encode_utf8 s2.
Proof.
  unfold encode_utf8. induction 1; simpl.
  - reflexivity.
  - by apply Permutation_app_head.
  - rewrite !app_assoc. apply Permutation_app_tail, Permutation_app_comm.
  - etransitivity; eassumption.
Qed.

Lemma str_items_perm (e1 e2 : Entry) :
  e1 ≡ₚ e2 -> str_items e1 ≡ₚ str_items e2.
Proof.
  intros Hp. unfold str_items.
  apply Permutation_app_head, Permutation_app_tail, join_perm.
  by apply Permutation_map.
Qed.

(** The hash is a function of the multiset of bytes of
    [str(content.items())], and of nothing else. *)
Lemma get_content_hash_bytes (e1 e2 : Entry) :
  encode_utf8 (str_items e1) ≡ₚ encode_utf8 (str_items e2) ->
  get_content_hash e1 = get_content_hash e2.
Proof.
  intros Hp. unfold get_content_hash, content_str.
  by rewrite (sorted_nat_perm _ _ Hp).
Qed.

(** C9. [get_content_hash] does not depend on the order in which the
    fields were inserted: two entries holding the same key/value pairs in
    different orders have the same fingerprint. *)
Theorem get_content_hash_order_invariant (e1 e2 : Entry) :
  e1 ≡ₚ e2 -> get_content_hash e1 = get_content_hash e2.
Proof.
  intros Hp. apply get_content_hash_bytes, encode_utf8_perm, str_items_perm, Hp.
Qed.

Lemma get_content_hash_order_invariant_witness :
  title_company ≡ₚ company_title
  /\ get_content_hash title_company = get_content_hash company_title.
Proof.
  assert (Hp : title_company ≡ₚ company_title) by apply perm_swap.
  split; [exact Hp | exact (get_content_hash_order_invariant _ _ Hp)].
Defined.

(** ** Anagrams collide *)

(** C3. Two entries that differ in the value of a field, yet hash alike:
    the text handed to MD5 is already the same, because the bytes of
    [str(content.items())] are sorted before they are hashed, so the value
    ["listen"] and its anagram ["silent"] cannot be told apart. *)
Theorem get_content_hash_anagram_collision :
  dict_get entry_listen "title" <> dict_get entry_silent "title"
  /\ content_str entry_listen = content_str entry_silent
  /\ get_content_hash entry_listen = get_content_hash entry_silent
  /\ get_content_hash entry_listen = "7a3a1fd583864269fc6c01fbcd4d89f0".
Proof.
  split; [discriminate|].
  split; [vm_compute; reflexivity|].
  split; vm_compute; reflexivity.
Qed.

Lemma swap_in_context (A B C x y : list ascii) :
  A ++ x ++ B ++ y ++ C ≡ₚ A ++ y ++ B ++ x ++ C.
Proof.
  apply Permutation_app_head.
  rewrite (Permutation_app_swap_app x B), (Permutation_app_swap_app y B).
  apply Permutation_app_head, Permutation_app_swap_app.
Qed.

(** The collision is not special to one pair: exchanging the values of two
    fields never changes the fingerprint. *)
Lemma get_content_hash_swapped_values (k1 k2 : string) (v1 v2 : Value) :
  get_content_hash [(k1, v1); (k2, v2)] = get_content_hash [(k1, v2); (k2, v1)].
Proof.
  apply get_content_hash_bytes, encode_utf8_perm.
  pose (A := chars "dict_items([" ++ "("%char :: repr_str k1 ++ comma_sp).
  pose (B := ")"%char :: comma_sp ++ "("%char :: repr_str k2 ++ comma_sp).
  pose (C := ")"%char :: chars "])").
  assert (Hshape : forall a b,
    str_items [(k1, a); (k2, b)] = A ++ repr_value a ++ B ++ repr_value b ++ C).
  { intros a b. unfold str_items, repr_item, A, B, C. simpl.
    repeat (rewrite <- !app_assoc; simpl). reflexivity. }
  rewrite !Hshape. apply swap_in_context.
Qed.

(** ** The dictionary operations *)

Lemma dict_get_set_eq (d : dict) (k : string) (v : Value) :
  dict_get (dict_set d k v) k = Some v.
Proof.
  induction d as [|[k' v'] d IH]; simpl.
  - by rewrite String.eqb_refl.
  - destruct (String.eqb k k') eqn:E; simpl; rewrite E; [reflexivity | exact IH].
Qed.

Lemma dict_get_set_ne (d : dict) (k k' : string) (v : Value) :
  k' <> k -> dict_get (dict_set d k v) k' = dict_get d k'.
Proof.
  intros Hne. induction d as [|[k0 v0] d IH]; simpl.
  - apply String.eqb_neq in Hne. by rewrite Hne.
  - destruct (String.eqb k k0) eqn:E; simpl.
    + apply String.eqb_eq in E. subst k0.
      apply String.eqb_neq in Hne. by rewrite Hne.
    + destruct (String.eqb k' k0); [reflexivity | exact IH].
Qed.

Lemma dict_get_in (d : dict) (k : string) (v : Value) :
  NoDup d.*1 -> (k, v) ∈ d -> dict_get d k = Some v.
Proof.
  induction d as [|[k0 v0] d IH]; intros Hnd Hin.
  - by apply elem_of_nil in Hin.
  - apply NoDup_cons in Hnd as [Hnotin Hnd]. simpl.
    apply elem_of_cons in Hin as [Heq | Hin].
    + injection Heq as -> ->. by rewrite String.eqb_refl.
    + destruct (String.eqb k k0) eqn:E.
      * apply String.eqb_eq in E. subst k0. exfalso. apply Hnotin.
        apply list_elem_of_fmap. by exists (k, v).
      * by apply IH.
Qed.

(** ** [resolve_conflicts]: which calls return *)


(** A round only writes under its own key. *)
Lemma merge_field_get_ne (resolved resolved' : Entry) (key k : string) (value : Value) :
  merge_field resolved key value = Ok resolved' -> k <> key ->
  dict_get resolved' k = dict_get resolved k.
Proof.
  unfold merge_field. intros Hm Hne.
  destruct value as [| |s| |l].
  - by injection Hm as <-.
  - by injection Hm as <-.
  - destruct (py_len _) as [n|]; [|discriminate]. simpl in Hm.
    injection Hm as <-. destruct (Nat.ltb n _); [by apply dict_get_set_ne | reflexivity].
  - by injection Hm as <-.
  - destruct (py_add_list _ _) as [m|]; [|discriminate]. simpl in Hm.
    injection Hm as <-. by apply dict_get_set_ne.
Qed.







(** A text meeting [None] raises as well: [len(None)]. *)
Lemma resolve_conflicts_raises_on_none_field :
  resolve_conflicts [("title", VStr "Engineer")] [("title", VNone)] = Raise TypeError.
Proof. reflexivity. Qed.

(** ** Fuzzy matching: which fields are compared *)




(** ** The tests of [tests/test_dedup.py], run on the model *)

Example test_exact_duplicate_detection :
  (is_duplicate_entry default_resolver (swe "Software Engineer" "Tech Corp")
     [swe "Software Engineer" "Tech Corp"]).1 = true.
Proof. vm_compute. reflexivity. Qed.

Example test_fuzzy_duplicate_detection :
  (is_duplicate_entry default_resolver (swe "Senior Software Engineer" "Tech Corp")
     [swe "Sr. Software Engineer" "Tech Corp"]).1 = true.
Proof. vm_compute. reflexivity. Qed.

Example test_non_duplicate_detection :
  (is_duplicate_entry default_resolver (swe "Software Engineer" "Tech Corp")
     [swe "Product Manager" "Different Corp"]).1 = false.
Proof. vm_compute. reflexivity. Qed.

Example test_conflict_resolution_timestamps :
  resolve_conflicts
    [("title", VStr "Senior Engineer"); ("timestamp", on_day 2021 1 1);
     ("skills", VList ["Python"; "Java"])]
    [("title", VStr "Engineer"); ("timestamp", on_day 2020 1 1);
     ("skills", VList ["Python"])]
  = Ok [("title", VStr "Senior Engineer"); ("timestamp", on_day 2021 1 1);
        ("skills", VList ["Java"; "Python"])].
Proof. vm_compute. reflexivity. Qed.

Example test_edge_cases :
  deduplicate_entries default_resolver [] = Ok []
  /\ (is_duplicate_entry default_resolver none_title_a []).1 = false
  /\ (is_duplicate_entry default_resolver [("title", VStr "Engineer")]
        [[("company", VStr "Tech Corp")]]).1 = false
  /\ (is_duplicate_entry default_resolver [("title", VStr "Software Engineer (AI/ML)")]
        [[("title", VStr "Software Engineer [AI/ML]")]]).1 = true.
Proof. repeat split; vm_compute; reflexivity. Qed.

(** ** [resolve_conflicts]: what a list field becomes *)

Lemma dict_get_elem (d : dict) (k : string) (v : Value) :
  dict_get d k = Some v -> (k, v) ∈ d.
Proof.
  induction d as [|[k0 v0] d IH]; simpl; [discriminate|].
  destruct (String.eqb k k0) eqn:E.
  - apply String.eqb_eq in E. subst k0. intros [= ->]. by left.
  - intros Hg. right. by apply IH.
Qed.

Lemma merge_fields_get_notin (items : list (string * Value)) (r r' : Entry) (k : string) :
  merge_fields items r = Ok r' -> k ∉ items.*1 -> dict_get r' k = dict_get r k.
Proof.
  revert r. induction items as [|[k0 v0] items IH]; intros r Hm Hk.
  - by injection Hm as <-.
  - cbn [merge_fields] in Hm.
    destruct (merge_field r k0 v0) as [r1|] eqn:E1; [|discriminate].
    cbn in Hm. rewrite (IH r1 Hm).
    + eapply merge_field_get_ne; [exact E1|]. intros ->. apply Hk. by left.
    + intros Hin. apply Hk. by right.
Qed.

Lemma merge_field_list (r r' : Entry) (k : string) (l : list string) :
  merge_field r k (VList l) = Ok r' ->
  exists l0, dict_get_default r k (VList []) = VList l0
             /\ dict_get r' k = Some (VList (sorted_str (list_set (l0 ++ l)))).
Proof.
  unfold merge_field. intros Hm.
  destruct (dict_get_default r k (VList [])) as [| | | |l0]; try discriminate.
  cbn in Hm. injection Hm as <-. exists l0. split; [reflexivity|].
  apply dict_get_set_eq.
Qed.

Lemma merge_fields_list (items : list (string * Value)) (r r' : Entry)
    (k : string) (l : list string) :
  NoDup items.*1 -> (k, VList l) ∈ items -> merge_fields items r = Ok r' ->
  exists l0, dict_get_default r k (VList []) = VList l0
             /\ dict_get r' k = Some (VList (sorted_str (list_set (l0 ++ l)))).
Proof.
  revert r. induction items as [|[k0 v0] items IH]; intros r Hnd Hin Hm.
  - by apply elem_of_nil in Hin.
  - apply NoDup_cons in Hnd as [Hk0 Hnd]. cbn [merge_fields] in Hm.
    destruct (merge_field r k0 v0) as [r1|] eqn:E1; [|discriminate]. cbn in Hm.
    apply elem_of_cons in Hin as [Heq|Hin].
    + injection Heq as <- <-.
      destruct (merge_field_list _ _ _ _ E1) as (l0 & Hl0 & Hget).
      exists l0. split; [exact Hl0|].
      by rewrite (merge_fields_get_notin items r1 r' k Hm Hk0).
    + destruct (IH r1 Hnd Hin Hm) as (l0 & Hl0 & Hget).
      exists l0. split; [|exact Hget].
      unfold dict_get_default in *.
      rewrite <- (merge_field_get_ne r r1 k0 k v0 E1); [exact Hl0|].
      intros ->. apply Hk0. apply list_elem_of_fmap. by exists (k0, VList l).
Qed.

(** The list [resolve_conflicts] leaves under a list field of the incoming
    entry: the sorted set of the base's list and the incoming one.  When
    the incoming entry is the newer, the base is the incoming entry itself,
    and whatever the existing entry listed there does not come into it. *)
Lemma resolve_conflicts_list_field (new_entry existing_entry resolved : Entry)
    (k : string) (l : list string) :
  NoDup new_entry.*1 ->
  dict_get new_entry k = Some (VList l) ->
  resolve_conflicts new_entry existing_entry = Ok resolved ->
  exists (newer : bool) (l0 : list string),
    py_gt (dict_get_default new_entry "timestamp" (VDatetime datetime_min))
          (dict_get_default existing_entry "timestamp" (VDatetime datetime_min))
      = Ok newer
    /\ (if newer then l0 = l
        else dict_get_default existing_entry k (VList []) = VList l0)
    /\ dict_get resolved k = Some (VList (sorted_str (list_set (l0 ++ l)))).
Proof.
  intros Hnd Hk Hres. unfold resolve_conflicts in Hres.
  destruct (py_gt _ _) as [newer|] eqn:Egt; [|discriminate]. cbn in Hres.
  destruct (merge_fields_list new_entry _ resolved k l Hnd (dict_get_elem _ _ _ Hk) Hres)
    as (l0 & Hl0 & Hget).
  exists newer, l0. split; [reflexivity|]. split; [|exact Hget].
  destruct newer; [|exact Hl0].
  unfold dict_get_default in Hl0. rewrite Hk in Hl0. by injection Hl0 as ->.
Qed.

(** [sorted(list(set(l)))] holds the elements of [l], once each, in order. *)
Lemma sorted_set_spec (l : list string) :
  (forall x, x ∈ sorted_str (list_set l) <-> x ∈ l)
  /\ NoDup (sorted_str (list_set l))
  /\ Sorted str_le (sorted_str (list_set l)).
Proof.
  unfold sorted_str, list_set. split; [|split].
  - intros x. rewrite merge_sort_Permutation. apply elem_of_remove_dups.
  - rewrite merge_sort_Permutation. apply NoDup_remove_dups.
  - apply Sorted_merge_sort. intros x y. unfold str_le.
    destruct (String.leb_total x y); auto.
Qed.

(** ** [deduplicate_entries]: the skills of the older entry *)

(** C4. On the two entries of [test_deduplication_with_merging], which
    match fuzzily, [deduplicate_entries] returns one entry whose skills are
    those of the newer entry alone: ["Java"], a skill of the older entry,
    is lost, where the test expects Python, Java and Kubernetes. *)
Theorem deduplicate_entries_drops_older_skills :
  fuzzy_match_one default_resolver swe_2021 swe_2020 = true
  /\ deduplicate_entries default_resolver [swe_2020; swe_2021]
     = Ok [[("title", VStr "Sr. Software Engineer");
            ("skills", VList ["Kubernetes"; "Python"]);
            ("timestamp", on_day 2021 1 1)]]
  /\ "Java" ∉ ["Kubernetes"; "Python"].
Proof.
  split; [vm_compute; reflexivity|].
  split; [vm_compute; reflexivity|].
  intros Hin. repeat (apply elem_of_cons in Hin as [Hin|Hin]; [discriminate|]).
  by apply elem_of_nil in Hin.
Qed.

(** With the entries in the other order the older one comes in against the
    newer: the existing entry stays the base and the union is whole. *)
Example deduplicate_entries_keeps_skills_other_order :
  deduplicate_entries default_resolver [swe_2021; swe_2020]
  = Ok [[("title", VStr "Sr. Software Engineer");
         ("skills", VList ["Java"; "Kubernetes"; "Python"]);
         ("timestamp", on_day 2021 1 1)]].
Proof. vm_compute. reflexivity. Qed.

End DedupSpec.

(* ===================================================================== *)
(** * Properties of [merge_into_kb] *)
(* ===================================================================== *)

Module KbIngestSpec.
Import Json KbIngest.

Lemma append_all_some (f : item -> item) (xs l : list item) :
  append_all f xs (Some l) = Some (l ++ map f xs).
Proof.
  unfold append_all. revert l.
  induction xs as [|x xs IH]; intros l; cbn [foldl map].
  - by rewrite app_nil_r.
  - cbn [default]. rewrite IH. by rewrite <- app_assoc.
Qed.

Lemma append_all_entries (f : item -> item) (xs : list item) (data : option (list item)) :
  xs <> [] -> append_all f xs data = Some (default [] data ++ map f xs).
Proof.
  destruct xs as [|x xs]; [done|]. intros _.
  change (append_all f (x :: xs) data)
    with (append_all f xs (Some (default [] data ++ [f x]))).
  rewrite append_all_some. cbn [map]. by rewrite <- app_assoc.
Qed.

Lemma foldl_snoc_app (l xs : list item) :
  foldl (fun l exp => l ++ [exp]) l xs = l ++ xs.
Proof.
  revert l. induction xs as [|x xs IH]; intros l; simpl.
  - by rewrite app_nil_r.
  - rewrite IH. by rewrite <- app_assoc.
Qed.

Lemma truthy_true_ne {A} (l : list A) : truthy l = true -> l <> [].
Proof. by destruct l. Qed.

(** What [cv.json] holds after the merge. *)
Lemma merge_cv_entries (parsed : ContentBundle) (name_hint : option string)
    (f : file CvData) :
  cv_entries (merge_cv parsed name_hint f).1 = cv_entries f ++ experience parsed.
Proof.
  unfold merge_cv.
  destruct (truthy_str (summary parsed) || truthy (experience parsed)) eqn:E.
  - cbn [fst cv_entries cv_experience default].
    assert (Hold : default [] (cv_experience (load_or (mk_cv None None None) f))
                   = cv_entries f) by (by destruct f).
    rewrite Hold.
    destruct (truthy (experience parsed)) eqn:Et.
    + apply foldl_snoc_app.
    + destruct (experience parsed); [by rewrite app_nil_r | discriminate].
  - apply orb_false_elim in E as [_ Et].
    destruct (experience parsed); [|discriminate].
    cbn [fst]. by rewrite app_nil_r.
Qed.

(** What a one-key file holds after the merge. *)
Lemma merge_collection_entries (normalize : item -> item) (incoming : list item)
    (f : file (option (list item))) :
  collection_entries (merge_collection normalize incoming f).1
  = collection_entries f ++ map normalize incoming.
Proof.
  unfold merge_collection.
  destruct (truthy incoming) eqn:Et.
  - cbn [fst collection_entries].
    rewrite append_all_entries by (by apply truthy_true_ne).
    cbn [default]. by destruct f as [| |[l|]].
  - destruct incoming; [|discriminate]. cbn [fst map]. by rewrite app_nil_r.
Qed.

(** C7. The merge only adds.  In each of the four collections the entries
    held before [merge_into_kb] are all there afterwards, in their places:
    the new list is the old one followed by the incoming entries (as they
    are for the experience and the projects, normalised for the patents
    and the certifications). *)
Theorem merge_into_kb_append_only (kb : KB) (parsed : ContentBundle)
    (name_hint : option string) :
  let kb' := (merge_into_kb kb parsed name_hint).1 in
  cv_entries (cv_json kb') = cv_entries (cv_json kb) ++ experience parsed
  /\ collection_entries (projects_json kb')
     = collection_entries (projects_json kb) ++ projects parsed
  /\ collection_entries (patents_json kb')
     = collection_entries (patents_json kb) ++ map normalize_patent (patents parsed)
  /\ collection_entries (certifications_json kb')
     = collection_entries (certifications_json kb)
       ++ map normalize_cert (certifications parsed)
  /\ (forall x, x ∈ cv_entries (cv_json kb) -> x ∈ cv_entries (cv_json kb'))
  /\ (forall x, x ∈ collection_entries (projects_json kb) ->
                x ∈ collection_entries (projects_json kb'))
  /\ (forall x, x ∈ collection_entries (patents_json kb) ->
                x ∈ collection_entries (patents_json kb'))
  /\ (forall x, x ∈ collection_entries (certifications_json kb) ->
                x ∈ collection_entries (certifications_json kb')).
Proof.
  intros kb'.
  assert (Hcv : cv_entries (cv_json kb') = cv_entries (cv_json kb) ++ experience parsed).
  { subst kb'. unfold merge_into_kb.
    pose proof (merge_cv_entries parsed name_hint (cv_json kb)) as Hm.
    destruct (merge_cv parsed name_hint (cv_json kb)) as [cv' n_cv].
    destruct (merge_collection _ (projects parsed) _) as [proj' n_proj].
    destruct (merge_collection normalize_patent _ _) as [pat' n_pat].
    destruct (merge_collection normalize_cert _ _) as [cert' n_cert].
    exact Hm. }
  assert (Hproj : collection_entries (projects_json kb')
                  = collection_entries (projects_json kb) ++ projects parsed).
  { subst kb'. unfold merge_into_kb.
    pose proof (merge_collection_entries (fun p => p) (projects parsed) (projects_json kb)) as Hm.
    destruct (merge_cv parsed name_hint (cv_json kb)) as [cv' n_cv].
    destruct (merge_collection _ (projects parsed) _) as [proj' n_proj].
    destruct (merge_collection normalize_patent _ _) as [pat' n_pat].
    destruct (merge_collection normalize_cert _ _) as [cert' n_cert].
    rewrite map_id in Hm. exact Hm. }
  assert (Hpat : collection_entries (patents_json kb')
                 = collection_entries (patents_json kb) ++ map normalize_patent (patents parsed)).
  { subst kb'. unfold merge_into_kb.
    pose proof (merge_collection_entries normalize_patent (patents parsed) (patents_json kb)) as Hm.
    destruct (merge_cv parsed name_hint (cv_json kb)) as [cv' n_cv].
    destruct (merge_collection _ (projects parsed) _) as [proj' n_proj].
    destruct (merge_collection normalize_patent _ _) as [pat' n_pat].
    destruct (merge_collection normalize_cert _ _) as [cert' n_cert].
    exact Hm. }
  assert (Hcert : collection_entries (certifications_json kb')
                  = collection_entries (certifications_json kb)
                    ++ map normalize_cert (certifications parsed)).
  { subst kb'. unfold merge_into_kb.
    pose proof (merge_collection_entries normalize_cert (certifications parsed)
                  (certifications_json kb)) as Hm.
    destruct (merge_cv parsed name_hint (cv_json kb)) as [cv' n_cv].
    destruct (merge_collection _ (projects parsed) _) as [proj' n_proj].
    destruct (merge_collection normalize_patent _ _) as [pat' n_pat].
    destruct (merge_collection normalize_cert _ _) as [cert' n_cert].
    exact Hm. }
  repeat split; try assumption; intros x Hx.
  - rewrite Hcv. apply elem_of_app. by left.
  - rewrite Hproj. apply elem_of_app. by left.
  - rewrite Hpat. apply elem_of_app. by left.
  - rewrite Hcert. apply elem_of_app. by left.
Qed.

(** The counts of the summary are the numbers of entries appended. *)
Lemma merge_into_kb_summary (kb : KB) (parsed : ContentBundle) (name_hint : option string) :
  (merge_into_kb kb parsed name_hint).2
  = mk_summary (length (experience parsed)) (length (projects parsed))
               (length (patents parsed)) (length (certifications parsed)).
Proof.
  unfold merge_into_kb, merge_cv, merge_collection.
  destruct (experience parsed), (projects parsed), (patents parsed),
    (certifications parsed), (truthy_str (summary parsed)); reflexivity.
Qed.

End KbIngestSpec.

(* ===================================================================== *)
(** * Properties of the staging area *)
(* ===================================================================== *)

Module StagingSpec.
Import Json KbIngest Staging StagingData.
Import Py (result, Ok, Raise, ValueError).
Local Open Scope string_scope.
Local Open Scope list_scope.

Section WithDigest.
Context {digest : IdDigest}.

(** ** [cleanup_old_entries] *)

Lemma cleanup_loop_lookup (max_age_days : Z) (now : instant)
    (paths : list (string * StageEntry)) (dir : gmap string StageEntry)
    (removed : nat) (id : string) :
  (cleanup_loop max_age_days now paths dir removed).1 !! id
  = if unlinked_in max_age_days now paths id then None else dir !! id.
Proof.
  revert dir removed. induction paths as [|[k e] rest IH]; intros dir removed.
  - reflexivity.
  - cbn [cleanup_loop unlinked_in existsb fst snd].
    fold (unlinked_in max_age_days now rest id).
    destruct (unlinks max_age_days now e) eqn:Eu.
    + rewrite IH. destruct (String.eqb k id) eqn:Ek; cbn [andb orb].
      * apply String.eqb_eq in Ek. subst k.
        rewrite lookup_delete_eq. by destruct (unlinked_in _ _ _ _).
      * apply String.eqb_neq in Ek. by rewrite lookup_delete_ne.
    + rewrite IH. by rewrite andb_false_r.
Qed.

Lemma cleanup_loop_count (max_age_days : Z) (now : instant)
    (paths : list (string * StageEntry)) (dir : gmap string StageEntry) (removed : nat) :
  NoDup paths.*1 ->
  (forall k e, (k, e) ∈ paths -> dir !! k = Some e) ->
  let r := cleanup_loop max_age_days now paths dir removed in
  size r.1 + r.2 = size dir + removed.
Proof.
  revert dir removed. induction paths as [|[k e] rest IH]; intros dir removed Hnd Hin.
  - reflexivity.
  - apply NoDup_cons in Hnd as [Hk Hnd]. cbn [cleanup_loop].
    destruct (unlinks max_age_days now e).
    + cbn zeta in IH |- *. rewrite IH; [| exact Hnd |].
      * rewrite map_size_delete_Some by (exists e; apply Hin; left).
        assert (0 < size dir).
        { destruct (decide (size dir = 0)) as [Hz|]; [|lia].
          apply map_size_empty_inv in Hz. subst dir.
          specialize (Hin k e ltac:(left)). by rewrite lookup_empty in Hin. }
        lia.
      * intros k' e' Hin'. rewrite lookup_delete_ne.
        -- apply Hin. by right.
        -- intros ->. apply Hk. apply list_elem_of_fmap. by exists (k', e').
    + apply IH; [exact Hnd|]. intros k' e' Hin'. apply Hin. by right.
Qed.

Lemma unlinked_in_map_to_list (max_age_days : Z) (now : instant)
    (dir : gmap string StageEntry) (id : string) :
  unlinked_in max_age_days now (map_to_list dir) id
  = match dir !! id with
    | Some e => unlinks max_age_days now e
    | None => false
    end.
Proof.
  unfold unlinked_in.
  destruct (existsb _ _) eqn:Ex.
  - apply existsb_exists in Ex as [[k e] [Hin Hb]].
    apply andb_prop in Hb as [Hk Hu]. apply String.eqb_eq in Hk. cbn in Hk, Hu. subst k.
    apply list_elem_of_In, elem_of_map_to_list in Hin. by rewrite Hin.
  - destruct (dir !! id) as [e|] eqn:El; [|reflexivity].
    destruct (unlinks max_age_days now e) eqn:Eu; [|reflexivity].
    assert (Hex : existsb (fun kv : string * StageEntry =>
                    String.eqb kv.1 id && unlinks max_age_days now kv.2)
                    (map_to_list dir) = true).
    { apply existsb_exists. exists (id, e). split.
      - by apply list_elem_of_In, elem_of_map_to_list.
      - cbn. by rewrite String.eqb_refl, Eu. }
    congruence.
Qed.

(** What is left of each record after the cleanup. *)
Lemma cleanup_old_entries_lookup (dir : gmap string StageEntry) (max_age_days : Z)
    (now : instant) (id : string) :
  (cleanup_old_entries dir max_age_days now).1 !! id
  = match dir !! id with
    | Some e => if unlinks max_age_days now e then None else Some e
    | None => None
    end.
Proof.
  unfold cleanup_old_entries. rewrite cleanup_loop_lookup, unlinked_in_map_to_list.
  by destruct (dir !! id).
Qed.


(** ** [stage_parsed_content] *)

(** C10. When the id derived from the bundle and its metadata is that of
    a record already staged, [stage_parsed_content] returns that id and
    puts a fresh record in its place, whatever the old one was: the status
    is pending again, and the old approval or rejection timestamps and
    rejection reason are gone.  Records under other ids are untouched. *)
Theorem stage_parsed_content_overwrites (dir : gmap string StageEntry)
    (parsed : ContentBundle) (source_info : object) (now : instant)
    (stage_id : string) (old : StageEntry) :
  generate_stage_id (fresh_entry parsed source_info now) = stage_id ->
  dir !! stage_id = Some old ->
  let r := stage_parsed_content dir parsed source_info now in
  r.2 = stage_id
  /\ r.1 !! stage_id = Some (fresh_entry parsed source_info now)
  /\ status (metadata (fresh_entry parsed source_info now)) = Pending
  /\ approved_at (metadata (fresh_entry parsed source_info now)) = None
  /\ rejected_at (metadata (fresh_entry parsed source_info now)) = None
  /\ rejection_reason (metadata (fresh_entry parsed source_info now)) = None
  /\ (forall id, id <> stage_id -> r.1 !! id = dir !! id).
Proof.
  intros Hid Hold r. subst r. unfold stage_parsed_content.
  fold (fresh_entry parsed source_info now). rewrite Hid. cbn [fst snd].
  repeat split.
  - apply lookup_insert_eq.
  - intros id Hne. by apply lookup_insert_ne.
Qed.

(** ** [approve_staged_entry] and [reject_staged_entry] *)

Lemma approve_staged_entry_unfold (st : State) (stage_id : string) (now : instant)
    (e : StageEntry) :
  staging_dir st !! stage_id = Some e ->
  approve_staged_entry st stage_id now
  = if bool_decide (status (metadata e) = Approved)
    then (st, Raise (already stage_id "approved"))
    else (mk_state (<[stage_id := approved_entry e now]> (staging_dir st))
                   (merge_into_kb (kb st) (content e) None).1,
          Ok (mk_approval stage_id now (merge_into_kb (kb st) (content e) None).2)).
Proof.
  intros Hl. unfold approve_staged_entry, get_staged_entry. rewrite Hl.
  case_bool_decide; [reflexivity|].
  cbn [content]. by destruct (merge_into_kb _ _ _).
Qed.

Lemma reject_staged_entry_unfold (dir : gmap string StageEntry) (stage_id reason : string)
    (now : instant) (e : StageEntry) :
  dir !! stage_id = Some e ->
  reject_staged_entry dir stage_id reason now
  = if bool_decide (status (metadata e) = Rejected)
    then (dir, Raise (already stage_id "rejected"))
    else (<[stage_id := rejected_entry e reason now]> dir,
          Ok (mk_rejection stage_id now reason)).
Proof.
  intros Hl. unfold reject_staged_entry, get_staged_entry. by rewrite Hl.
Qed.

(** C2. On a record that is already approved, [approve_staged_entry]
    raises (the [ValueError] "was already approved") and changes nothing; on
    a record that is already rejected, [reject_staged_entry] raises (the
    [ValueError] "was already rejected") and changes nothing.  Each call
    checks its own terminal state only: approving a rejected record and
    rejecting an approved record both succeed and rewrite the record. *)
Theorem terminal_record_transitions (st : State) (stage_id reason : string)
    (now : instant) (e : StageEntry) :
  staging_dir st !! stage_id = Some e ->
  status (metadata e) <> Pending ->
  match status (metadata e) with
  | Approved =>
      approve_staged_entry st stage_id now = (st, Raise (already stage_id "approved"))
      /\ reject_staged_entry (staging_dir st) stage_id reason now
         = (<[stage_id := rejected_entry e reason now]> (staging_dir st),
            Ok (mk_rejection stage_id now reason))
  | Rejected =>
      reject_staged_entry (staging_dir st) stage_id reason now
        = (staging_dir st, Raise (already stage_id "rejected"))
      /\ approve_staged_entry st stage_id now
         = (mk_state (<[stage_id := approved_entry e now]> (staging_dir st))
                     (merge_into_kb (kb st) (content e) None).1,
            Ok (mk_approval stage_id now (merge_into_kb (kb st) (content e) None).2))
  | Pending => True
  end.
Proof.
  intros Hl Hterm.
  rewrite (approve_staged_entry_unfold st stage_id now e Hl).
  rewrite (reject_staged_entry_unfold (staging_dir st) stage_id reason now e Hl).
  destruct (status (metadata e)); [done| |]; split; reflexivity.
Qed.

(** ** Sequences of calls: who merges *)

Lemma step_kb (st : State) (op : Op) :
  is_approve op = false -> kb (step st op) = kb st.
Proof. by destruct op. Qed.

Lemma run_kb (st : State) (ops : list Op) :
  forallb (fun op => negb (is_approve op)) ops = true -> kb (run st ops) = kb st.
Proof.
  revert st. induction ops as [|op ops IH]; intros st Hall; [reflexivity|].
  cbn [forallb] in Hall. apply andb_prop in Hall as [Hop Hall].
  cbn [run foldl]. fold (run (step st op) ops). rewrite IH by exact Hall.
  apply step_kb. by destruct (is_approve op).
Qed.

Lemma merged_during_approve (st : State) (ops : list Op) (stage_id : string) :
  stage_id ∈ merged_during st ops -> exists now, Approve stage_id now ∈ ops.
Proof.
  revert st. induction ops as [|op ops IH]; intros st Hin.
  - by apply elem_of_nil in Hin.
  - cbn [merged_during] in Hin. apply elem_of_app in Hin as [Hin|Hin].
    + destruct op; cbn [merges] in Hin; try (by apply elem_of_nil in Hin).
      destruct (Py.is_ok _); [|by apply elem_of_nil in Hin].
      apply list_elem_of_singleton in Hin. subst. eexists. by left.
    + destruct (IH _ Hin) as [now Hnow]. exists now. by right.
Qed.

(** C1. Once [reject_staged_entry] has succeeded the record is kept, with
    its content, under the status rejected, and the knowledge base is as it
    was.  From there no staging call other than an approval touches the
    knowledge base, and the bundle of this record is merged only by a later
    [approve_staged_entry] on its id, which the code accepts on a rejected
    record: it then merges the bundle. *)
Theorem rejected_bundle_merged_only_by_approve (st : State) (stage_id reason : string)
    (now : instant) (dir1 : gmap string StageEntry) (r : Rejection) :
  reject_staged_entry (staging_dir st) stage_id reason now = (dir1, Ok r) ->
  let st1 := mk_state dir1 (kb st) in
  (exists e, staging_dir st !! stage_id = Some e
             /\ dir1 !! stage_id = Some (rejected_entry e reason now)
             /\ (forall later, approve_staged_entry st1 stage_id later
                  = (mk_state (<[stage_id := approved_entry (rejected_entry e reason now) later]> dir1)
                              (merge_into_kb (kb st) (content e) None).1,
                     Ok (mk_approval stage_id later
                           (merge_into_kb (kb st) (content e) None).2))))
  /\ (forall ops, forallb (fun op => negb (is_approve op)) ops = true ->
                  kb (run st1 ops) = kb st)
  /\ (forall ops, stage_id ∈ merged_during st1 ops ->
                  exists later, Approve stage_id later ∈ ops).
Proof.
  intros Hrej st1. split; [|split].
  - unfold reject_staged_entry, get_staged_entry in Hrej.
    destruct (staging_dir st !! stage_id) as [e|] eqn:Hl; [|discriminate].
    case_bool_decide; [discriminate|].
    injection Hrej as <- _. exists e. split; [reflexivity|].
    fold (rejected_entry e reason now).
    split; [apply lookup_insert_eq|].
    intros later. subst st1.
    rewrite (approve_staged_entry_unfold _ stage_id later (rejected_entry e reason now))
      by apply lookup_insert_eq.
    reflexivity.
  - intros ops Hops. by rewrite run_kb.
  - intros ops. apply merged_during_approve.
Qed.

End WithDigest.

(** ** Runs on a concrete staging area *)

Local Open Scope Z_scope.

Lemma stage_parsed_content_overwrites_witness :
  let r := stage_parsed_content (digest := empty_text_digest)
             (staging_dir st_approved) demo_bundle demo_source 0 in
  (status <$> (metadata <$> staging_dir st_approved !! demo_id)) = Some Approved
  /\ r.2 = demo_id
  /\ r.1 !! demo_id = Some (fresh_entry demo_bundle demo_source 0).
Proof.
  assert (Hold : staging_dir st_approved !! demo_id
                 = Some (approved_entry (fresh_entry demo_bundle demo_source 0) 1))
    by (vm_compute; reflexivity).
  pose proof (stage_parsed_content_overwrites (digest := empty_text_digest)
                (staging_dir st_approved) demo_bundle demo_source 0 demo_id _
                eq_refl Hold) as (Hid & Hnew & _).
  split; [by rewrite Hold|]. split; assumption.
Defined.

Lemma terminal_record_transitions_witness :
  approve_staged_entry st_approved demo_id 2
  = (st_approved, Raise (already demo_id "approved"))
  /\ reject_staged_entry (staging_dir st_approved) demo_id "late" 2
     = (<[demo_id := rejected_entry (approved_entry (fresh_entry demo_bundle demo_source 0) 1)
                       "late" 2]> (staging_dir st_approved),
        Ok (mk_rejection demo_id 2 "late")).
Proof.
  assert (Hold : staging_dir st_approved !! demo_id
                 = Some (approved_entry (fresh_entry demo_bundle demo_source 0) 1))
    by (vm_compute; reflexivity).
  exact (terminal_record_transitions st_approved demo_id "late" 2 _
           Hold ltac:(discriminate)).
Defined.

(** A rejected record is approved: the call returns and the status flips. *)
Lemma approve_accepts_rejected_record :
  (status <$> (metadata <$> dir_rejected !! demo_id)) = Some Rejected
  /\ Py.is_ok (approve_staged_entry (mk_state dir_rejected empty_kb) demo_id 2).2 = true
  /\ (status <$> (metadata <$>
        staging_dir (approve_staged_entry (mk_state dir_rejected empty_kb) demo_id 2).1
        !! demo_id)) = Some Approved.
Proof. repeat split; vm_compute; reflexivity. Qed.

(** A bundle is staged, rejected, then approved: its project ends up in
    the knowledge base. *)
Lemma rejected_bundle_is_merged_by_approve :
  Py.is_ok (reject_staged_entry dir_staged demo_id "not mine" 1).2 = true
  /\ merged_during (digest := empty_text_digest) (mk_state dir_rejected empty_kb)
       [Get demo_id; Approve demo_id 2] = [demo_id]
  /\ collection_entries (projects_json (kb (run (digest := empty_text_digest)
       (mk_state dir_rejected empty_kb) [Get demo_id; Approve demo_id 2])))
     = [compiler_project].
Proof. repeat split; vm_compute; reflexivity. Qed.

Lemma rejected_bundle_merged_only_by_approve_witness :
  kb (run (digest := empty_text_digest) (mk_state dir_rejected empty_kb)
        [Preview demo_id; Cleanup 30 5; List_ None]) = empty_kb.
Proof.
  assert (Hrej : reject_staged_entry (staging_dir (mk_state dir_staged empty_kb))
                   demo_id "not mine" 1
                 = (dir_rejected, Ok (mk_rejection demo_id 1 "not mine")))
    by (vm_compute; reflexivity).
  pose proof (rejected_bundle_merged_only_by_approve (digest := empty_text_digest)
                (mk_state dir_staged empty_kb) demo_id "not mine" 1 dir_rejected _ Hrej)
    as (_ & Hkb & _).
  exact (Hkb [Preview demo_id; Cleanup 30 5; List_ None] eq_refl).
Defined.

End StagingSpec.

(* ===================================================================== *)
(** * More on [DuplicateResolver]: matching order, merging rules *)
(* ===================================================================== *)

Module DedupMore.
Import Py Dedup DedupData DedupMoreData DedupSpec.
Local Open Scope string_scope.
Local Open Scope list_scope.

(** ** [is_duplicate_entry]: the first match wins *)

Lemma exact_match_some (h : string) (l : list Entry) (m : Entry) :
  exact_match h l = Some m ->
  exists pre post, l = pre ++ m :: post
    /\ get_content_hash m = h
    /\ Forall (fun x => get_content_hash x <> h) pre.
Proof.
  induction l as [|x l IH]; [discriminate|]. cbn [exact_match].
  destruct (String.eqb (get_content_hash x) h) eqn:E.
  - intros [= <-]. apply String.eqb_eq in E. exists [], l. by repeat split.
  - intros Hm. destruct (IH Hm) as (pre & post & -> & Hh & Hpre).
    exists (x :: pre), post. repeat split; [exact Hh|].
    constructor; [by apply String.eqb_neq | exact Hpre].
Qed.

Lemma exact_match_none (h : string) (l : list Entry) :
  exact_match h l = None -> Forall (fun x => get_content_hash x <> h) l.
Proof.
  induction l as [|x l IH]; [constructor|]. cbn [exact_match].
  destruct (String.eqb (get_content_hash x) h) eqn:E; [discriminate|].
  intros Hm. constructor; [by apply String.eqb_neq | by apply IH].
Qed.

Lemma fuzzy_match_some (self : DuplicateResolver) (new_entry : Entry) (l : list Entry)
    (m : Entry) :
  fuzzy_match self new_entry l = Some m ->
  exists pre post, l = pre ++ m :: post
    /\ fuzzy_match_one self new_entry m = true
    /\ Forall (fun x => fuzzy_match_one self new_entry x = false) pre.
Proof.
  induction l as [|x l IH]; [discriminate|]. cbn [fuzzy_match].
  destruct (fuzzy_match_one self new_entry x) eqn:E.
  - intros [= <-]. exists [], l. by repeat split.
  - intros Hm. destruct (IH Hm) as (pre & post & -> & Hh & Hpre).
    exists (x :: pre), post. repeat split; [exact Hh|]. by constructor.
Qed.

Lemma fuzzy_match_none (self : DuplicateResolver) (new_entry : Entry) (l : list Entry) :
  fuzzy_match self new_entry l = None ->
  Forall (fun x => fuzzy_match_one self new_entry x = false) l.
Proof.
  induction l as [|x l IH]; [constructor|]. cbn [fuzzy_match].
  destruct (fuzzy_match_one self new_entry x) eqn:E; [discriminate|].
  intros Hm. constructor; [exact E | by apply IH].
Qed.

(** X1. [is_duplicate_entry] makes two passes and the first match of a pass
    wins.  When it answers [True] the entry it returns is one of the
    existing entries: the first with the hash of the new entry, or, when no
    entry has that hash, the first that matches fuzzily.  When it answers
    [False] it returns the empty dictionary, and no existing entry has the
    hash or matches fuzzily. *)
Theorem is_duplicate_entry_first_match (self : DuplicateResolver) (new_entry : Entry)
    (existing_entries : list Entry) :
  let r := is_duplicate_entry self new_entry existing_entries in
  let same_hash x := get_content_hash x = get_content_hash new_entry in
  if r.1
  then exists pre post, existing_entries = pre ++ r.2 :: post
         /\ ((same_hash r.2 /\ Forall (fun x => ~ same_hash x) pre)
             \/ (Forall (fun x => ~ same_hash x) existing_entries
                 /\ fuzzy_match_one self new_entry r.2 = true
                 /\ Forall (fun x => fuzzy_match_one self new_entry x = false) pre))
  else r.2 = []
       /\ Forall (fun x => ~ same_hash x) existing_entries
       /\ Forall (fun x => fuzzy_match_one self new_entry x = false) existing_entries.
Proof.
  intros r same_hash. subst r same_hash. unfold is_duplicate_entry.
  destruct (exact_match _ _) as [m|] eqn:Ee.
  - cbn [fst snd]. destruct (exact_match_some _ _ _ Ee) as (pre & post & Hl & Hh & Hpre).
    exists pre, post. split; [exact Hl|]. left. by split.
  - pose proof (exact_match_none _ _ Ee) as Hno.
    destruct (fuzzy_match _ _ _) as [m|] eqn:Ef; cbn [fst snd].
    + destruct (fuzzy_match_some _ _ _ _ Ef) as (pre & post & Hl & Hh & Hpre).
      exists pre, post. split; [exact Hl|]. right. by repeat split.
    + repeat split; [exact Hno | by apply fuzzy_match_none].
Qed.

(** X2. An entry is always found to duplicate a list that holds a copy of
    it with the fields in any order, whatever the threshold: the hash pass
    catches it. *)
Theorem permuted_copy_is_duplicate (self : DuplicateResolver) (new_entry copy : Entry)
    (existing_entries : list Entry) :
  copy ∈ existing_entries -> new_entry ≡ₚ copy ->
  let r := is_duplicate_entry self new_entry existing_entries in
  r.1 = true /\ get_content_hash r.2 = get_content_hash new_entry.
Proof.
  intros Hin Hperm r. subst r. unfold is_duplicate_entry.
  destruct (exact_match _ _) as [m|] eqn:Ee.
  - cbn [fst snd]. split; [reflexivity|].
    by destruct (exact_match_some _ _ _ Ee) as (_ & _ & _ & Hh & _).
  - exfalso. pose proof (exact_match_none _ _ Ee) as Hno.
    rewrite Forall_forall in Hno. apply (Hno copy Hin).
    symmetry. apply get_content_hash_bytes, encode_utf8_perm, str_items_perm, Hperm.
Qed.

Lemma permuted_copy_is_duplicate_witness :
  (is_duplicate_entry default_resolver title_company [entry_listen; company_title]).1 = true.
Proof.
  refine (proj1 (permuted_copy_is_duplicate default_resolver title_company company_title
                   [entry_listen; company_title] _ _)).
  - right. left.
  - apply perm_swap.
Defined.

(** ** [deduplicate_entries]: how many entries, which exceptions *)

Lemma value_eqb_refl (v : Value) : value_eqb v v = true.
Proof.
  destruct v as [|n|s|d|l]; cbn.
  - reflexivity.
  - apply Z.eqb_refl.
  - apply String.eqb_refl.
  - by rewrite !Z.eqb_refl.
  - by apply bool_decide_eq_true_2.
Qed.

Lemma dict_eqb_refl (d : dict) : NoDup d.*1 -> dict_eqb d d = true.
Proof.
  intros Hnd. unfold dict_eqb. rewrite Nat.eqb_refl. cbn [andb].
  apply forallb_forall. intros [k v] Hin. cbn [fst snd].
  rewrite (dict_get_in d k v Hnd) by (by apply list_elem_of_In).
  apply value_eqb_refl.
Qed.

Lemma index_found (l : list Entry) (x : Entry) :
  x ∈ l -> dict_eqb x x = true -> exists i, index l x = Ok i /\ i < length l.
Proof.
  intros Hin Hrefl. induction l as [|y l IH]; [by apply elem_of_nil in Hin|].
  cbn [index]. destruct (dict_eqb y x) eqn:E.
  - exists 0. split; [reflexivity | cbn; lia].
  - apply elem_of_cons in Hin as [->|Hin]; [congruence|].
    destruct (IH Hin) as (i & -> & Hi). exists (S i). split; [reflexivity | cbn; lia].
Qed.

Lemma dict_set_keys (d : dict) (k : string) (v : Value) :
  (dict_set d k v).*1 = if dict_contains d k then d.*1 else d.*1 ++ [k].
Proof.
  unfold dict_contains. induction d as [|[k0 v0] d IH]; [reflexivity|].
  cbn [dict_set dict_get]. destruct (String.eqb k k0) eqn:E.
  - apply String.eqb_eq in E. by subst k0.
  - cbn [fmap list_fmap fst]. cbn [fmap] in IH. rewrite IH.
    by destruct (dict_get d k).
Qed.

Lemma dict_contains_elem (d : dict) (k : string) :
  dict_contains d k = true <-> k ∈ d.*1.
Proof.
  unfold dict_contains. induction d as [|[k0 v0] d IH]; cbn [dict_get].
  - split; [discriminate | by intros ?%elem_of_nil].
  - cbn [fmap list_fmap fst]. rewrite elem_of_cons.
    destruct (String.eqb k k0) eqn:E.
    + apply String.eqb_eq in E. split; [by left | reflexivity].
    + apply String.eqb_neq in E. cbn [fmap] in IH. rewrite IH.
      split; [by right | by intros [?|?]].
Qed.

Lemma dict_set_NoDup (d : dict) (k : string) (v : Value) :
  NoDup d.*1 -> NoDup (dict_set d k v).*1.
Proof.
  intros Hnd. rewrite dict_set_keys.
  destruct (dict_contains d k) eqn:E; [exact Hnd|].
  apply NoDup_app. split; [exact Hnd|]. split; [|apply NoDup_singleton].
  intros x Hx ->%list_elem_of_singleton.
  apply dict_contains_elem in Hx. congruence.
Qed.

Lemma merge_field_NoDup (r r' : Entry) (k : string) (v : Value) :
  merge_field r k v = Ok r' -> NoDup r.*1 -> NoDup r'.*1.
Proof.
  unfold merge_field. intros Hm Hnd. destruct v as [| |s| |l].
  - by injection Hm as <-.
  - by injection Hm as <-.
  - destruct (py_len _) as [n|]; [|discriminate]. cbn in Hm. injection Hm as <-.
    case_match; [by apply dict_set_NoDup | exact Hnd].
  - by injection Hm as <-.
  - destruct (py_add_list _ _) as [m|]; [|discriminate]. cbn in Hm. injection Hm as <-.
    by apply dict_set_NoDup.
Qed.

Lemma merge_fields_NoDup (items : list (string * Value)) (r r' : Entry) :
  merge_fields items r = Ok r' -> NoDup r.*1 -> NoDup r'.*1.
Proof.
  revert r. induction items as [|[k v] items IH]; intros r Hm Hnd.
  - by injection Hm as <-.
  - cbn [merge_fields] in Hm.
    destruct (merge_field r k v) as [r1|] eqn:E1; [|discriminate]. cbn in Hm.
    eapply IH; [exact Hm|]. eapply merge_field_NoDup; eassumption.
Qed.

(** The merged entry is a dictionary when the two entries are. *)
Lemma resolve_conflicts_NoDup (new_entry existing_entry resolved : Entry) :
  resolve_conflicts new_entry existing_entry = Ok resolved ->
  NoDup new_entry.*1 -> NoDup existing_entry.*1 -> NoDup resolved.*1.
Proof.
  unfold resolve_conflicts. intros Hres Hn Ho.
  destruct (py_gt _ _) as [newer|]; [|discriminate]. cbn in Hres.
  eapply merge_fields_NoDup; [exact Hres|]. by destruct newer.
Qed.

Lemma merge_fields_raises (items : list (string * Value)) (r : Entry) (e : exn) :
  merge_fields items r = Raise e -> e = TypeError.
Proof.
  revert r. induction items as [|[k v] items IH]; intros r Hm; [discriminate|].
  cbn [merge_fields] in Hm.
  destruct (merge_field r k v) as [r1|e1] eqn:E1; cbn in Hm.
  - by eapply IH.
  - injection Hm as <-. unfold merge_field in E1.
    destruct v as [| |s| |l]; try discriminate.
    + destruct (dict_get_default r k (VStr EmptyString)) as [| | | |]; cbn in E1;
        try discriminate; by injection E1 as <-.
    + destruct (dict_get_default r k (VList [])) as [| | | |]; cbn in E1;
        try discriminate; by injection E1 as <-.
Qed.

(** Whatever [resolve_conflicts] raises is a [TypeError]. *)
Lemma resolve_conflicts_raises (new_entry existing_entry : Entry) (e : exn) :
  resolve_conflicts new_entry existing_entry = Raise e -> e = TypeError.
Proof.
  unfold resolve_conflicts. intros Hres.
  destruct (py_gt _ _) as [newer|e1] eqn:Egt; cbn in Hres.
  - by eapply merge_fields_raises.
  - injection Hres as <-. unfold py_gt in Egt.
    repeat case_match; try discriminate; by injection Egt as <-.
Qed.

(** The entry [is_duplicate_entry] returns with [True] is one of the list. *)
Lemma is_duplicate_entry_elem (self : DuplicateResolver) (new_entry : Entry)
    (existing_entries : list Entry) :
  (is_duplicate_entry self new_entry existing_entries).1 = true ->
  (is_duplicate_entry self new_entry existing_entries).2 ∈ existing_entries.
Proof.
  unfold is_duplicate_entry.
  destruct (exact_match _ _) as [m|] eqn:Ee; cbn [fst snd].
  - intros _. destruct (exact_match_some _ _ _ Ee) as (pre & post & -> & _).
    apply elem_of_app. right. by left.
  - destruct (fuzzy_match _ _ _) as [m|] eqn:Ef; cbn [fst snd]; [|discriminate].
    intros _. destruct (fuzzy_match_some _ _ _ _ Ef) as (pre & post & -> & _).
    apply elem_of_app. right. by left.
Qed.

Lemma dedup_loop_spec (self : DuplicateResolver) (entries unique_entries : list Entry) :
  Forall (fun e => NoDup e.*1) entries ->
  Forall (fun e => NoDup e.*1) unique_entries ->
  match dedup_loop self entries unique_entries with
  | Ok out =>
      length unique_entries <= length out <= length unique_entries + length entries
      /\ Forall (fun e => NoDup e.*1) out
  | Raise e => e = TypeError
  end.
Proof.
  revert unique_entries.
  induction entries as [|entry rest IH]; intros unique_entries Hent Huniq.
  - cbn. split; [lia | exact Huniq].
  - apply Forall_cons in Hent as [Hentry Hrest]. cbn [dedup_loop].
    pose proof (is_duplicate_entry_elem self entry unique_entries) as Hdup.
    destruct (is_duplicate_entry self entry unique_entries) as [is_dup m].
    cbn [fst snd] in Hdup. destruct is_dup.
    + assert (Hin : m ∈ unique_entries) by (by apply Hdup).
      assert (Hm : NoDup m.*1).
      { rewrite Forall_forall in Huniq. by apply Huniq. }
      destruct (index_found unique_entries m Hin (dict_eqb_refl m Hm)) as (i & -> & Hi).
      cbn.
      destruct (resolve_conflicts entry m) as [merged|e] eqn:Eres; cbn.
      * specialize (IH (<[i := merged]> unique_entries) Hrest).
        rewrite length_insert in IH.
        destruct (dedup_loop self rest _) as [out|e].
        -- destruct IH as [Hlen Hwf].
           { apply Forall_insert; [exact Huniq|].
             eapply resolve_conflicts_NoDup; eassumption. }
           split; [cbn; lia | exact Hwf].
        -- apply IH. apply Forall_insert; [exact Huniq|].
           eapply resolve_conflicts_NoDup; eassumption.
      * by eapply resolve_conflicts_raises.
    + specialize (IH (unique_entries ++ [entry]) Hrest).
      rewrite length_app in IH. cbn [length] in IH.
      assert (Hwf : Forall (fun e => NoDup e.*1) (unique_entries ++ [entry])).
      { apply Forall_app. split; [exact Huniq | by constructor]. }
      destruct (dedup_loop self rest _) as [out|e].
      * destruct (IH Hwf) as [Hlen Hout]. split; [cbn; lia | exact Hout].
      * by apply IH.
Qed.

(** X3. [deduplicate_entries] on dictionaries either raises a
    [TypeError], which comes from [resolve_conflicts], or returns a list of
    dictionaries that is no longer than its input and is empty only for the
    empty input.  The look-up of the matching entry by [index] never
    fails. *)
Theorem deduplicate_entries_outcome (self : DuplicateResolver) (entries : list Entry) :
  Forall (fun e => NoDup e.*1) entries ->
  match deduplicate_entries self entries with
  | Ok out =>
      length out <= length entries
      /\ (entries <> [] -> out <> [])
      /\ Forall (fun e => NoDup e.*1) out
  | Raise e => e = TypeError
  end.
Proof.
  intros Hwf. unfold deduplicate_entries.
  destruct entries as [|entry rest]; [cbn; by repeat split|].
  apply Forall_cons in Hwf as [Hentry Hrest].
  change (dedup_loop self (entry :: rest) []) with (dedup_loop self rest [entry]).
  pose proof (dedup_loop_spec self rest [entry] Hrest ltac:(by constructor)) as Hspec.
  destruct (dedup_loop self rest [entry]) as [out|e]; [|exact Hspec].
  destruct Hspec as [[Hlo Hhi] Hout]. cbn [length] in *.
  split; [lia|]. split; [|exact Hout].
  intros _ ->. cbn in Hlo. lia.
Qed.

Lemma deduplicate_entries_outcome_witness :
  match deduplicate_entries default_resolver [swe_2020; swe_2021] with
  | Ok out =>
      length out <= 2
      /\ ([swe_2020; swe_2021] <> [] -> out <> [])
      /\ Forall (fun e => NoDup e.*1) out
  | Raise e => e = TypeError
  end.
Proof.
  apply (deduplicate_entries_outcome default_resolver [swe_2020; swe_2021]).
  repeat constructor; apply (bool_decide_unpack _); vm_compute; exact I.
Defined.

(** ** [resolve_conflicts]: what becomes of each field *)

Lemma merge_fields_passed_over (items : list (string * Value)) (r r' : Entry) (k : string) :
  NoDup items.*1 ->
  (forall v, (k, v) ∈ items -> passed_over (Some v) = true) ->
  merge_fields items r = Ok r' -> dict_get r' k = dict_get r k.
Proof.
  revert r. induction items as [|[k0 v0] items IH]; intros r Hnd Hk Hm.
  - by injection Hm as <-.
  - apply NoDup_cons in Hnd as [Hk0 Hnd]. cbn [merge_fields] in Hm.
    destruct (merge_field r k0 v0) as [r1|] eqn:E1; [|discriminate]. cbn in Hm.
    destruct (decide (k = k0)) as [->|Hne].
    + rewrite (merge_fields_get_notin items r1 r' k0 Hm Hk0).
      specialize (Hk v0 ltac:(left)). unfold merge_field in E1.
      destruct v0; try discriminate; by injection E1 as <-.
    + rewrite (IH r1 Hnd); [by eapply merge_field_get_ne | | exact Hm].
      intros v Hv. apply Hk. by right.
Qed.

(** X4. A field under which the incoming entry holds neither a list nor
    a text (it has no such key, or holds [None], a number or a datetime
    there) comes out of [resolve_conflicts] as the base has it.  So a
    number or a [None] of the incoming entry is never copied into an older
    base, and when the incoming entry is the newer, hence the base, a field
    that only the existing entry has is dropped. *)
Theorem resolve_conflicts_passed_over_field (new_entry existing_entry resolved : Entry)
    (k : string) :
  NoDup new_entry.*1 ->
  passed_over (dict_get new_entry k) = true ->
  resolve_conflicts new_entry existing_entry = Ok resolved ->
  exists newer : bool,
    incoming_newer new_entry existing_entry = Ok newer
    /\ dict_get resolved k = dict_get (if newer then new_entry else existing_entry) k.
Proof.
  intros Hnd Hk Hres. unfold resolve_conflicts in Hres. unfold incoming_newer.
  destruct (py_gt _ _) as [newer|]; [|discriminate]. cbn in Hres.
  exists newer. split; [reflexivity|].
  eapply merge_fields_passed_over; [exact Hnd | | exact Hres].
  intros v Hv. by rewrite (dict_get_in new_entry k v Hnd Hv) in Hk.
Qed.

Lemma resolve_conflicts_passed_over_field_witness :
  exists resolved,
    resolve_conflicts with_year with_company = Ok resolved
    /\ dict_get resolved "year" = None.
Proof.
  assert (Hres : resolve_conflicts with_year with_company
                 = Ok [("title", VStr "Engineer"); ("company", VStr "Tech Corp")])
    by reflexivity.
  destruct (resolve_conflicts_passed_over_field with_year with_company _ "year"
              ltac:(apply (bool_decide_unpack _); vm_compute; exact I) eq_refl Hres)
    as (newer & Hnewer & Hget).
  eexists. split; [exact Hres|].
  injection Hnewer as <-. exact Hget.
Defined.

Lemma merge_field_text (r r' : Entry) (k s : string) :
  merge_field r k (VStr s) = Ok r' ->
  exists n, py_len (dict_get_default r k (VStr EmptyString)) = Ok n
            /\ dict_get r' k = if Nat.ltb n (String.length s)
                               then Some (VStr s) else dict_get r k.
Proof.
  unfold merge_field. intros Hm.
  destruct (py_len _) as [n|]; [|discriminate]. cbn [mbind result_bind bind] in Hm.
  injection Hm as <-. exists n. split; [reflexivity|].
  destruct (Nat.ltb n (String.length s)); [apply dict_get_set_eq | reflexivity].
Qed.

Lemma merge_fields_text (items : list (string * Value)) (r r' : Entry) (k s : string) :
  NoDup items.*1 -> (k, VStr s) ∈ items -> merge_fields items r = Ok r' ->
  exists n, py_len (dict_get_default r k (VStr EmptyString)) = Ok n
            /\ dict_get r' k = if Nat.ltb n (String.length s)
                               then Some (VStr s) else dict_get r k.
Proof.
  revert r. induction items as [|[k0 v0] items IH]; intros r Hnd Hin Hm.
  - by apply elem_of_nil in Hin.
  - apply NoDup_cons in Hnd as [Hk0 Hnd]. cbn [merge_fields] in Hm.
    destruct (merge_field r k0 v0) as [r1|] eqn:E1; [|discriminate]. cbn in Hm.
    apply elem_of_cons in Hin as [Heq|Hin].
    + injection Heq as <- <-.
      destruct (merge_field_text _ _ _ _ E1) as (n & Hn & Hget).
      exists n. split; [exact Hn|].
      by rewrite (merge_fields_get_notin items r1 r' k Hm Hk0).
    + assert (Hne : k <> k0).
      { intros ->. apply Hk0. apply list_elem_of_fmap. by exists (k0, VStr s). }
      destruct (IH r1 Hnd Hin Hm) as (n & Hn & Hget).
      unfold dict_get_default in *.
      rewrite (merge_field_get_ne r r1 k0 k v0 E1 Hne) in Hn, Hget.
      by exists n.
Qed.

(** X5. The text rule of [resolve_conflicts].  Under a key where the
    incoming entry holds a text, the result holds that text when the
    incoming entry is the newer; otherwise the incoming text replaces what
    the existing entry has only when it is strictly longer (a text of the
    same length, or an empty incoming text against a missing field, changes
    nothing). *)
Theorem resolve_conflicts_text_field (new_entry existing_entry resolved : Entry)
    (k s : string) :
  NoDup new_entry.*1 ->
  dict_get new_entry k = Some (VStr s) ->
  resolve_conflicts new_entry existing_entry = Ok resolved ->
  exists newer : bool,
    incoming_newer new_entry existing_entry = Ok newer
    /\ if newer then dict_get resolved k = Some (VStr s)
       else exists n,
         py_len (dict_get_default existing_entry k (VStr EmptyString)) = Ok n
         /\ dict_get resolved k = if Nat.ltb n (String.length s)
                                  then Some (VStr s) else dict_get existing_entry k.
Proof.
  intros Hnd Hk Hres. unfold resolve_conflicts in Hres. unfold incoming_newer.
  destruct (py_gt _ _) as [newer|]; [|discriminate]. cbn in Hres.
  exists newer. split; [reflexivity|].
  destruct (merge_fields_text new_entry _ resolved k s Hnd (dict_get_elem _ _ _ Hk) Hres)
    as (n & Hn & Hget).
  destruct newer; [|by exists n].
  unfold dict_get_default in Hn. rewrite Hk in Hn. injection Hn as <-.
  by rewrite Nat.ltb_irrefl, Hk in Hget.
Qed.

Lemma resolve_conflicts_text_field_witness :
  exists resolved,
    resolve_conflicts engineer_new engineer_old = Ok resolved
    /\ dict_get resolved "title" = Some (VStr "Senior Engineer").
Proof.
  assert (Hres : resolve_conflicts engineer_new engineer_old
                 = Ok [("title", VStr "Senior Engineer");
                       ("timestamp", VDatetime (mk_datetime 2021 1 1 0 0 0 0));
                       ("skills", VList ["Java"; "Python"])])
    by (vm_compute; reflexivity).
  destruct (resolve_conflicts_text_field engineer_new engineer_old _ "title" "Senior Engineer"
              ltac:(apply (bool_decide_unpack _); vm_compute; exact I) eq_refl Hres)
    as (newer & Hnewer & Hget).
  eexists. split; [exact Hres|].
  injection Hnewer as <-. exact Hget.
Defined.

End DedupMore.

(* ===================================================================== *)
(** * [text_similarity]: the blocks behind the ratio *)
(* ===================================================================== *)

Module DifflibMore.
Import Difflib DifflibMoreData.

Lemma indices_from_spec (c : ascii) (b : seqc) (j0 j : nat) :
  j ∈ indices_from c b j0 -> j0 <= j /\ at_ b (j - j0) = c.
Proof.
  revert j0. induction b as [|x b IH]; intros j0 Hin.
  - by apply elem_of_nil in Hin.
  - cbn [indices_from] in Hin. unfold at_ in *.
    destruct (Ascii.eqb c x) eqn:E.
    + apply elem_of_cons in Hin as [->|Hin].
      * apply Ascii.eqb_eq in E. rewrite Nat.sub_diag. by split.
      * destruct (IH _ Hin) as [Hle Hat]. split; [lia|].
        replace (j - j0) with (S (j - S j0)) by lia. exact Hat.
    + destruct (IH _ Hin) as [Hle Hat]. split; [lia|].
      replace (j - j0) with (S (j - S j0)) by lia. exact Hat.
Qed.

Lemma b2j_spec (b : seqc) (c : ascii) (j : nat) :
  j ∈ b2j b c -> at_ b j = c.
Proof.
  unfold b2j. destruct (popular b c); [by intros ?%elem_of_nil|].
  intros Hin. destruct (indices_from_spec c b 0 j Hin) as [_ Hat].
  by rewrite Nat.sub_0_r in Hat.
Qed.

Section Blocks.
Variables (a b : seqc) (alo ahi blo bhi : nat).

Lemma runs_at_before (i : nat) (m : gmap nat nat) :
  runs_at a b alo blo bhi i m -> runs_before a b alo blo bhi (S i) m.
Proof.
  intros Hm j k Hjk. destruct (Hm j k Hjk) as (Hj & Hk1 & Hkj & Hki & Hd).
  split; [lia|]. split; [lia|]. split; [lia|]. split; [lia|].
  intros d Hdk. replace (S i - 1 - d) with (i - d) by lia. by apply Hd.
Qed.

Lemma scan_js_good (i : nat) (j2len : gmap nat nat) (js : list nat)
    (newj2len : gmap nat nat) (best : Match) :
  alo <= i < ahi ->
  (forall j, j ∈ js -> at_ b j = at_ a i) ->
  runs_before a b alo blo bhi i j2len -> runs_at a b alo blo bhi i newj2len ->
  good_block a b alo ahi blo bhi best ->
  let r := scan_js blo bhi i j2len js newj2len best in
  runs_at a b alo blo bhi i r.1 /\ good_block a b alo ahi blo bhi r.2.
Proof.
  intros Hi Hjs Hold. revert newj2len best.
  induction js as [|j js IH]; intros newj2len best Hnew Hbest; cbn [scan_js].
  - by split.
  - assert (Hjs' : forall j0, j0 ∈ js -> at_ b j0 = at_ a i)
      by (intros j0 Hj0; apply Hjs; by right).
    destruct (Nat.ltb j blo) eqn:Elo; [by apply IH|].
    destruct (Nat.leb bhi j) eqn:Ehi; [by split|].
    apply Nat.ltb_ge in Elo. apply Nat.leb_gt in Ehi.
    assert (Hrun : 1 <= j2len_prev j2len j + 1
                   /\ j2len_prev j2len j + 1 <= j + 1 - blo
                   /\ j2len_prev j2len j + 1 <= i + 1 - alo
                   /\ forall d, d < j2len_prev j2len j + 1 ->
                                at_ a (i - d) = at_ b (j - d)).
    { unfold j2len_prev. destruct j as [|j'].
      - split; [lia|]. split; [lia|]. split; [lia|].
        intros d Hd. replace d with 0 by lia.
        rewrite !Nat.sub_0_r. symmetry. apply Hjs. by left.
      - destruct (j2len !! j') as [k|] eqn:E;
          [change (default 0 (Some k)) with k | change (default 0 (@None nat)) with 0].
        + destruct (Hold j' k E) as (Hj & Hk1 & Hkj & Hki & Hd).
          split; [lia|]. split; [lia|]. split; [lia|].
          intros d Hdk. destruct d as [|d].
          * rewrite !Nat.sub_0_r. symmetry. apply Hjs. by left.
          * replace (i - S d) with (i - 1 - d) by lia.
            replace (S j' - S d) with (j' - d) by lia.
            apply Hd. lia.
        + split; [lia|]. split; [lia|]. split; [lia|].
          intros d Hd. replace d with 0 by lia.
          rewrite !Nat.sub_0_r. symmetry. apply Hjs. by left. }
    destruct Hrun as (Hk1 & Hkj & Hki & Hd).
    set (k := j2len_prev j2len j + 1) in *.
    apply IH; [exact Hjs' | |].
    + intros j0 k0. rewrite lookup_insert. case_decide.
      * intros [= <-]. subst j0.
        split; [lia|]. split; [lia|]. split; [lia|]. split; [lia | exact Hd].
      * apply Hnew.
    + destruct (Nat.ltb (m_size best) k); [|exact Hbest].
      split; [cbn; lia|]. split; [unfold in_range_b; cbn; lia|].
      intros d Hdk. cbn in Hdk |- *.
      replace (i + 1 - k + d) with (i - (k - 1 - d)) by lia.
      replace (j + 1 - k + d) with (j - (k - 1 - d)) by lia.
      apply Hd. lia.
Qed.

Lemma scan_is_good (n i0 : nat) (j2len : gmap nat nat) (best : Match) :
  alo <= i0 -> i0 + n <= ahi ->
  runs_before a b alo blo bhi i0 j2len ->
  good_block a b alo ahi blo bhi best ->
  good_block a b alo ahi blo bhi (scan_is a b blo bhi (seq i0 n) j2len best).
Proof.
  revert i0 j2len best. induction n as [|n IH]; intros i0 j2len best H0 Hn Hold Hbest.
  - exact Hbest.
  - cbn [seq scan_is].
    pose proof (scan_js_good i0 j2len (b2j b (at_ a i0)) ∅ best ltac:(lia)
                  (fun j => b2j_spec b (at_ a i0) j) Hold
                  ltac:(intros j k; by rewrite lookup_empty) Hbest) as [Hnew Hbest'].
    destruct (scan_js blo bhi i0 j2len (b2j b (at_ a i0)) ∅ best) as [newj2len best'].
    cbn [fst snd] in Hnew, Hbest'.
    apply IH; [lia | lia | by apply runs_at_before | exact Hbest'].
Qed.

Lemma extend_left_good (fuel : nat) (m : Match) :
  good_block a b alo ahi blo bhi m ->
  good_block a b alo ahi blo bhi (extend_left fuel a b alo blo m).
Proof.
  revert m. induction fuel as [|fuel IH]; intros m Hm; cbn [extend_left]; [exact Hm|].
  destruct (Nat.ltb alo (m_a m)) eqn:E1; cbn [andb]; [|exact Hm].
  destruct (Nat.ltb blo (m_b m)) eqn:E2; cbn [andb]; [|exact Hm].
  destruct (Ascii.eqb _ _) eqn:E3; [|exact Hm].
  apply Nat.ltb_lt in E1, E2. apply Ascii.eqb_eq in E3.
  destruct Hm as (Ha & Hb & Hmatch). unfold in_range_b in Hb.
  apply IH. split; [cbn; lia|]. split; [unfold in_range_b; cbn; lia|].
  intros d Hd. cbn in Hd |- *. destruct d as [|d].
  - by rewrite !Nat.add_0_r.
  - replace (m_a m - 1 + S d) with (m_a m + d) by lia.
    replace (m_b m - 1 + S d) with (m_b m + d) by lia.
    apply Hmatch. lia.
Qed.

Lemma extend_right_good (fuel : nat) (m : Match) :
  good_block a b alo ahi blo bhi m ->
  good_block a b alo ahi blo bhi (extend_right fuel a b ahi bhi m).
Proof.
  revert m. induction fuel as [|fuel IH]; intros m Hm; cbn [extend_right]; [exact Hm|].
  destruct (Nat.ltb (m_a m + m_size m) ahi) eqn:E1; cbn [andb]; [|exact Hm].
  destruct (Nat.ltb (m_b m + m_size m) bhi) eqn:E2; cbn [andb]; [|exact Hm].
  destruct (Ascii.eqb _ _) eqn:E3; [|exact Hm].
  apply Nat.ltb_lt in E1, E2. apply Ascii.eqb_eq in E3.
  destruct Hm as (Ha & Hb & Hmatch). unfold in_range_b in Hb.
  apply IH. split; [cbn; lia|]. split; [unfold in_range_b; cbn; lia|].
  intros d Hd. cbn in Hd |- *.
  destruct (decide (d = m_size m)) as [->|Hne]; [exact E3|].
  apply Hmatch. lia.
Qed.

(** [find_longest_match] returns a block of equal elements within the two
    ranges. *)
Lemma find_longest_match_good :
  alo <= ahi -> blo <= bhi ->
  good_block a b alo ahi blo bhi (find_longest_match a b alo ahi blo bhi).
Proof.
  intros Ha Hb. unfold find_longest_match.
  apply extend_right_good, extend_left_good, scan_is_good.
  - lia.
  - lia.
  - intros j k. by rewrite lookup_empty.
  - split; [cbn; lia|]. split; [unfold in_range_b; cbn; lia|].
    intros d Hd. cbn in Hd. lia.
Qed.

End Blocks.

Lemma room_a_app (q1 q2 : list (nat * nat * nat * nat)) :
  room_a (q1 ++ q2) = room_a q1 + room_a q2.
Proof.
  induction q1 as [|q q1 IH]; [reflexivity|].
  change (room_a ((q :: q1) ++ q2)) with ((q.1.1.2 - q.1.1.1) + room_a (q1 ++ q2)).
  change (room_a (q :: q1)) with ((q.1.1.2 - q.1.1.1) + room_a q1).
  rewrite IH. lia.
Qed.

Lemma room_b_app (q1 q2 : list (nat * nat * nat * nat)) :
  room_b (q1 ++ q2) = room_b q1 + room_b q2.
Proof.
  induction q1 as [|q q1 IH]; [reflexivity|].
  change (room_b ((q :: q1) ++ q2)) with ((q.2 - q.1.2) + room_b (q1 ++ q2)).
  change (room_b (q :: q1)) with ((q.2 - q.1.2) + room_b q1).
  rewrite IH. lia.
Qed.

Lemma matching_blocks_good (a b : seqc) (fuel : nat)
    (queue : list (nat * nat * nat * nat)) (acc : list Match) :
  Forall (range_ok a b) queue ->
  Forall (block_ok a b) acc ->
  let blocks := matching_blocks fuel a b queue acc in
  Forall (block_ok a b) blocks
  /\ size_sum blocks <= size_sum acc + room_a queue
  /\ size_sum blocks <= size_sum acc + room_b queue.
Proof.
  revert queue acc. induction fuel as [|fuel IH]; intros queue acc Hq Hacc.
  - cbn [matching_blocks]. split; [exact Hacc | split; lia].
  - destruct queue as [|[[[alo ahi] blo] bhi] rest].
    + cbn [matching_blocks]. split; [exact Hacc | split; lia].
    + apply Forall_cons in Hq as [Hr Hq]. destruct Hr as [[Ha1 Ha2] [Hb1 Hb2]].
      cbn [fst snd] in Ha1, Ha2, Hb1, Hb2. cbn [matching_blocks].
      pose proof (find_longest_match_good a b alo ahi blo bhi Ha1 Hb1)
        as ([Hlo Hhi] & [Hblo Hbhi] & Hmatch).
      set (x := find_longest_match a b alo ahi blo bhi) in *. clearbody x.
      change (room_a ((alo, ahi, blo, bhi) :: rest)) with ((ahi - alo) + room_a rest).
      change (room_b ((alo, ahi, blo, bhi) :: rest)) with ((bhi - blo) + room_b rest).
      destruct (Nat.eqb (m_size x) 0) eqn:Ek.
      * destruct (IH rest acc Hq Hacc) as (Hok & Hsa & Hsb).
        repeat split; [exact Hok | lia | lia].
      * set (q2 := if Nat.ltb (m_a x + m_size x) ahi && Nat.ltb (m_b x + m_size x) bhi
                   then [(m_a x + m_size x, ahi, m_b x + m_size x, bhi)] else []).
        set (q1 := if Nat.ltb alo (m_a x) && Nat.ltb blo (m_b x)
                   then [(alo, m_a x, blo, m_b x)] else []).
        assert (Hq2 : Forall (range_ok a b) q2
                      /\ room_a q2 <= ahi - (m_a x + m_size x)
                      /\ room_b q2 <= bhi - (m_b x + m_size x)).
        { subst q2.
          destruct (Nat.ltb (m_a x + m_size x) ahi && Nat.ltb (m_b x + m_size x) bhi) eqn:E.
          - apply andb_prop in E as [E1 E2]. apply Nat.ltb_lt in E1, E2.
            split; [|cbn; lia]. repeat constructor; cbn; lia.
          - split; [constructor | cbn; lia]. }
        assert (Hq1 : Forall (range_ok a b) q1
                      /\ room_a q1 <= m_a x - alo /\ room_b q1 <= m_b x - blo).
        { subst q1. destruct (Nat.ltb alo (m_a x) && Nat.ltb blo (m_b x)) eqn:E.
          - apply andb_prop in E as [E1 E2]. apply Nat.ltb_lt in E1, E2.
            split; [|cbn; lia]. repeat constructor; cbn; lia.
          - split; [constructor | cbn; lia]. }
        destruct Hq2 as (Hq2 & Hq2a & Hq2b). destruct Hq1 as (Hq1 & Hq1a & Hq1b).
        destruct (IH (q2 ++ q1 ++ rest) (x :: acc)) as (Hok & Hsa & Hsb).
        { apply Forall_app. split; [exact Hq2|]. apply Forall_app. by split. }
        { constructor; [|exact Hacc]. repeat split; [lia | lia | exact Hmatch]. }
        rewrite !room_a_app in Hsa. rewrite !room_b_app in Hsb.
        change (size_sum (x :: acc)) with (m_size x + size_sum acc) in Hsa, Hsb.
        repeat split; [exact Hok | lia | lia].
Qed.

(** X6. Every block [text_similarity] counts is a common substring of the
    two texts: it lies within both, and pairs equal characters. *)
Theorem matching_blocks_are_common_substrings (a b : seqc) :
  Forall (fun m => m_a m + m_size m <= length a
                   /\ m_b m + m_size m <= length b
                   /\ forall d, d < m_size m -> at_ a (m_a m + d) = at_ b (m_b m + d))
         (get_matching_blocks a b).
Proof.
  unfold get_matching_blocks.
  destruct (matching_blocks_good a b (2 * (length a + length b) + 1)
              [(0, length a, 0, length b)] []) as (Hok & _).
  - repeat constructor; cbn; lia.
  - constructor.
  - exact Hok.
Qed.

(** X7. The number of matched characters behind [text_similarity] is at
    most the length of either text, so that twice that number, the
    numerator of the ratio, never exceeds the sum of the lengths, its
    denominator. *)
Theorem matches_at_most_shorter (a b : seqc) :
  matches a b <= length a /\ matches a b <= length b
  /\ 2 * matches a b <= length a + length b.
Proof.
  change (matches a b) with (size_sum (get_matching_blocks a b)).
  unfold get_matching_blocks.
  destruct (matching_blocks_good a b (2 * (length a + length b) + 1)
              [(0, length a, 0, length b)] []) as (_ & Ha & Hb).
  - repeat constructor; cbn; lia.
  - constructor.
  - change (size_sum []) with 0 in Ha, Hb.
    change (room_a [(0, length a, 0, length b)]) with (length a - 0 + 0) in Ha.
    change (room_b [(0, length a, 0, length b)]) with (length b - 0 + 0) in Hb.
    lia.
Qed.

End DifflibMore.

(* ===================================================================== *)
(** * [merge_into_kb]: empty parts, repeated merges, stored shapes *)
(* ===================================================================== *)

Module KbIngestMore.
Import Json KbIngest Ingest KbIngestMoreData.
Local Open Scope string_scope.
Local Open Scope list_scope.

(** X8. A file of the knowledge base is written only when the bundle has
    something for it: with no experience and no summary [cv.json] is left as
    it is (absent, unreadable or loaded), and so is each of the other three
    files when its list is empty.  The empty bundle changes nothing and
    counts nothing. *)
Theorem merge_into_kb_empty_parts (kb : KB) (parsed : ContentBundle)
    (name_hint : option string) :
  let r := merge_into_kb kb parsed name_hint in
  (experience parsed = [] -> summary parsed = EmptyString ->
     cv_json r.1 = cv_json kb /\ cv_added r.2 = 0)
  /\ (projects parsed = [] -> projects_json r.1 = projects_json kb /\ projects_added r.2 = 0)
  /\ (patents parsed = [] -> patents_json r.1 = patents_json kb /\ patents_added r.2 = 0)
  /\ (certifications parsed = [] ->
        certifications_json r.1 = certifications_json kb /\ certs_added r.2 = 0)
  /\ merge_into_kb kb (mk_bundle [] [] [] [] EmptyString) name_hint
     = (kb, mk_summary 0 0 0 0).
Proof.
  intros r. subst r. unfold merge_into_kb.
  destruct (merge_cv parsed name_hint (cv_json kb)) as [cv' n_cv] eqn:Ecv.
  destruct (merge_collection _ (projects parsed) _) as [proj' n_proj] eqn:Eproj.
  destruct (merge_collection _ (patents parsed) _) as [pat' n_pat] eqn:Epat.
  destruct (merge_collection _ (certifications parsed) _) as [cert' n_cert] eqn:Ecert.
  cbn [fst snd cv_json projects_json patents_json certifications_json
       cv_added projects_added patents_added certs_added].
  split; [|split; [|split; [|split]]].
  - intros He Hs. unfold merge_cv in Ecv. rewrite He, Hs in Ecv.
    cbn in Ecv. by injection Ecv as <- <-.
  - intros He. unfold merge_collection in Eproj. rewrite He in Eproj.
    cbn in Eproj. by injection Eproj as <- <-.
  - intros He. unfold merge_collection in Epat. rewrite He in Epat.
    cbn in Epat. by injection Epat as <- <-.
  - intros He. unfold merge_collection in Ecert. rewrite He in Ecert.
    cbn in Ecert. by injection Ecert as <- <-.
  - by destruct kb.
Qed.

Lemma append_all_app (f : item -> item) (xs ys : list item) (data : option (list item)) :
  append_all f (xs ++ ys) data = append_all f ys (append_all f xs data).
Proof. apply foldl_app. Qed.

Lemma merge_collection_twice (normalize : item -> item) (i1 i2 : list item)
    (f : file (option (list item))) :
  (merge_collection normalize i2 (merge_collection normalize i1 f).1).1
  = (merge_collection normalize (i1 ++ i2) f).1.
Proof.
  unfold merge_collection. destruct i1 as [|x1 i1]; [reflexivity|].
  change (truthy (x1 :: i1)) with true. cbn [fst].
  destruct i2 as [|x2 i2].
  - by rewrite app_nil_r.
  - change (truthy (x2 :: i2)) with true.
    change (truthy ((x1 :: i1) ++ x2 :: i2)) with true.
    cbn [fst load_or]. by rewrite append_all_app.
Qed.

Lemma merge_cv_twice (b1 b2 : ContentBundle) (name_hint : option string)
    (f : file CvData) :
  (merge_cv b2 name_hint (merge_cv b1 name_hint f).1).1
  = (merge_cv (absorb b1 b2) name_hint f).1.
Proof.
  destruct b1 as [e1 p1 a1 c1 s1], b2 as [e2 p2 a2 c2 s2].
  unfold merge_cv, absorb. cbn [experience summary].
  destruct (truthy_str s2) eqn:E2, (truthy_str s1) eqn:E1,
    e1 as [|x1 e1], e2 as [|x2 e2];
    rewrite ?E1, ?E2;
    cbn [truthy length Nat.eqb negb app];
    cbn [orb fst load_or cv_name cv_experience cv_summary default from_option id];
    rewrite ?E1, ?E2;
    rewrite ?KbIngestSpec.foldl_snoc_app, ?app_nil_r, <- ?app_assoc;
    reflexivity.
Qed.

(** X9. Two merges in a row come to one merge of the two bundles put
    together the way [ingest_files] puts the sections of its files together
    (lists one after the other, the later summary when it is not empty):
    the four files end up the same, and the counts add up. *)
Theorem merge_into_kb_twice (kb : KB) (b1 b2 : ContentBundle) (name_hint : option string) :
  let r1 := merge_into_kb kb b1 name_hint in
  let r2 := merge_into_kb r1.1 b2 name_hint in
  let r := merge_into_kb kb (absorb b1 b2) name_hint in
  r2.1 = r.1
  /\ cv_added r.2 = cv_added r1.2 + cv_added r2.2
  /\ projects_added r.2 = projects_added r1.2 + projects_added r2.2
  /\ patents_added r.2 = patents_added r1.2 + patents_added r2.2
  /\ certs_added r.2 = certs_added r1.2 + certs_added r2.2.
Proof.
  intros r1 r2 r. subst r1 r2 r. split.
  - pose proof (merge_cv_twice b1 b2 name_hint (cv_json kb)) as Hcv.
    pose proof (merge_collection_twice (fun p => p) (projects b1) (projects b2)
                  (projects_json kb)) as Hproj.
    pose proof (merge_collection_twice normalize_patent (patents b1) (patents b2)
                  (patents_json kb)) as Hpat.
    pose proof (merge_collection_twice normalize_cert (certifications b1)
                  (certifications b2) (certifications_json kb)) as Hcert.
    unfold merge_into_kb.
    change (experience (absorb b1 b2)) with (experience b1 ++ experience b2) in *.
    change (projects (absorb b1 b2)) with (projects b1 ++ projects b2) in *.
    change (patents (absorb b1 b2)) with (patents b1 ++ patents b2) in *.
    change (certifications (absorb b1 b2))
      with (certifications b1 ++ certifications b2) in *.
    destruct (merge_cv b1 _ _) as [cv1 ?].
    destruct (merge_collection _ (projects b1) _) as [proj1 ?].
    destruct (merge_collection _ (patents b1) _) as [pat1 ?].
    destruct (merge_collection _ (certifications b1) _) as [cert1 ?].
    cbn [fst cv_json projects_json patents_json certifications_json] in *.
    destruct (merge_cv b2 _ _) as [cv2 ?].
    destruct (merge_collection _ (projects b2) _) as [proj2 ?].
    destruct (merge_collection _ (patents b2) _) as [pat2 ?].
    destruct (merge_collection _ (certifications b2) _) as [cert2 ?].
    destruct (merge_cv (absorb b1 b2) _ _) as [cv ?].
    destruct (merge_collection _ (projects b1 ++ projects b2) _) as [proj ?].
    destruct (merge_collection _ (patents b1 ++ patents b2) _) as [pat ?].
    destruct (merge_collection _ (certifications b1 ++ certifications b2) _) as [cert ?].
    cbn [fst] in *. congruence.
  - rewrite !KbIngestSpec.merge_into_kb_summary.
    cbn [cv_added projects_added patents_added certs_added absorb
         experience projects patents certifications].
    rewrite !length_app. by repeat split.
Qed.

Lemma normalize_patent_has_title (p : item) : has_title (normalize_patent p).
Proof.
  unfold normalize_patent.
  destruct p as [o|v]; [destruct (contains o "title")|]; reflexivity.
Qed.

Lemma normalize_cert_only_name (c : item) : only_name (normalize_cert c).
Proof. destruct c as [o|v]; eexists; reflexivity. Qed.

(** X10. The shape of what is stored.  Every entry a merge appends to
    [patents.json] is a dict with a [title], and every entry it appends to
    [certifications.json] is a dict with the single key [name]; so a file
    whose entries have that shape keeps it through every merge. *)
Theorem merge_into_kb_stored_shapes (kb : KB) (parsed : ContentBundle)
    (name_hint : option string) :
  let kb' := (merge_into_kb kb parsed name_hint).1 in
  (exists added, collection_entries (patents_json kb')
                 = collection_entries (patents_json kb) ++ added
                 /\ length added = length (patents parsed)
                 /\ Forall has_title added)
  /\ (exists added, collection_entries (certifications_json kb')
                    = collection_entries (certifications_json kb) ++ added
                    /\ length added = length (certifications parsed)
                    /\ Forall only_name added)
  /\ (Forall has_title (collection_entries (patents_json kb)) ->
      Forall has_title (collection_entries (patents_json kb')))
  /\ (Forall only_name (collection_entries (certifications_json kb)) ->
      Forall only_name (collection_entries (certifications_json kb'))).
Proof.
  intros kb'.
  assert (Hpat : collection_entries (patents_json kb')
                 = collection_entries (patents_json kb)
                   ++ map normalize_patent (patents parsed)).
  { subst kb'. unfold merge_into_kb.
    rewrite <- (KbIngestSpec.merge_collection_entries normalize_patent).
    destruct (merge_cv _ _ _), (merge_collection _ (projects parsed) _),
      (merge_collection _ (patents parsed) _),
      (merge_collection _ (certifications parsed) _). reflexivity. }
  assert (Hcert : collection_entries (certifications_json kb')
                  = collection_entries (certifications_json kb)
                    ++ map normalize_cert (certifications parsed)).
  { subst kb'. unfold merge_into_kb.
    rewrite <- (KbIngestSpec.merge_collection_entries normalize_cert).
    destruct (merge_cv _ _ _), (merge_collection _ (projects parsed) _),
      (merge_collection _ (patents parsed) _),
      (merge_collection _ (certifications parsed) _). reflexivity. }
  assert (Hp : Forall has_title (map normalize_patent (patents parsed))).
  { apply Forall_forall. intros x [p [-> _]]%list_elem_of_fmap.
    apply normalize_patent_has_title. }
  assert (Hc : Forall only_name (map normalize_cert (certifications parsed))).
  { apply Forall_forall. intros x [c [-> _]]%list_elem_of_fmap.
    apply normalize_cert_only_name. }
  split; [|split; [|split]].
  - eexists. split; [exact Hpat|]. split; [apply length_map | exact Hp].
  - eexists. split; [exact Hcert|]. split; [apply length_map | exact Hc].
  - intros Hold. rewrite Hpat. apply Forall_app. by split.
  - intros Hold. rewrite Hcert. apply Forall_app. by split.
Qed.

(** X11. The stored shapes are not the shapes read.  A certification is
    read by its [title] and stored under [name]: a dict without a [title],
    and so every entry as [certifications.json] holds it, is stored as
    [{'name': None}].  A patent entry as stored keeps its title when it is
    merged again. *)
Theorem stored_entries_merged_again (c p : item) :
  (forall o, get o "title" = None -> normalize_cert (Obj o) = Obj [("name", Null)])
  /\ normalize_cert (normalize_cert c) = Obj [("name", Null)]
  /\ title_of (normalize_patent (normalize_patent p)) = title_of (normalize_patent p)
  /\ title_of (normalize_patent p) <> None.
Proof.
  split; [|split; [|split]].
  - intros o Ho. unfold normalize_cert. by rewrite Ho.
  - by destruct c.
  - unfold normalize_patent.
    destruct p as [o|v]; [destruct (contains o "title")|]; reflexivity.
  - unfold normalize_patent.
    destruct p as [o|v]; [destruct (contains o "title")|]; discriminate.
Qed.

End KbIngestMore.

(* ===================================================================== *)
(** * The staging area: listing, preview, missing records, repeated calls *)
(* ===================================================================== *)

Module StagingMore.
Import Json KbIngest Staging StagingData StagingMoreData.
Import Py (result, Ok, Raise, ValueError).
Local Open Scope string_scope.
Local Open Scope list_scope.

(** ** [list_staged_entries] *)

Lemma list_staged_entries_elem (dir : gmap string StageEntry) (filter_ : option Status)
    (x : Listed) :
  x ∈ list_staged_entries dir filter_
  <-> exists e, dir !! l_id x = Some e /\ x = listing (l_id x) e /\ passes filter_ e.
Proof.
  unfold list_staged_entries. rewrite merge_sort_Permutation, list_elem_of_omap. split.
  - intros [[id e] [Hin Hf]]. apply elem_of_map_to_list in Hin.
    destruct filter_ as [s|].
    + case_bool_decide as Hs; [|discriminate]. injection Hf as <-.
      exists e. by repeat split.
    + injection Hf as <-. exists e. by repeat split.
  - intros (e & Hl & Hx & Hp). exists (l_id x, e). split.
    + by apply elem_of_map_to_list.
    + destruct filter_ as [s|]; cbn in Hp.
      * rewrite bool_decide_eq_true_2 by exact Hp. by rewrite Hx.
      * by rewrite Hx.
Qed.

Lemma listed_ids_sublist (f : string * StageEntry -> option Listed)
    (kvs : list (string * StageEntry)) :
  (forall kv x, f kv = Some x -> l_id x = kv.1) ->
  l_id <$> omap f kvs `sublist_of` kvs.*1.
Proof.
  intros Hf. induction kvs as [|kv kvs IH]; [constructor|].
  cbn [omap list_omap]. destruct (f kv) as [x|] eqn:E.
  - rewrite !fmap_cons, (Hf kv x E). by constructor.
  - rewrite fmap_cons. by constructor.
Qed.

#[local] Instance newer_first_total : Total newer_first.
Proof. intros x y. unfold newer_first. lia. Qed.

#[local] Instance newer_first_trans : Transitive newer_first.
Proof. intros x y z. unfold newer_first. lia. Qed.

(** X12. [list_staged_entries] returns one line for each record of the
    staging directory that passes the filter, and nothing else: a line
    carries the id, timestamp, source and status of its record, no id comes
    twice, and no line is later than a line before it (newest first).
    Without a filter there are as many lines as records. *)
Theorem list_staged_entries_spec (dir : gmap string StageEntry) (filter_ : option Status) :
  let lines := list_staged_entries dir filter_ in
  (forall x, x ∈ lines
     <-> exists e, dir !! l_id x = Some e /\ x = listing (l_id x) e /\ passes filter_ e)
  /\ NoDup (l_id <$> lines)
  /\ StronglySorted newer_first lines
  /\ length lines <= size dir
  /\ (filter_ = None -> length lines = size dir).
Proof.
  intros lines. subst lines.
  split; [intros x; apply list_staged_entries_elem|].
  assert (Hperm : list_staged_entries dir filter_
                  ≡ₚ omap (fun '(id, entry) =>
                       if match filter_ with
                          | None => true
                          | Some s => bool_decide (status (metadata entry) = s)
                          end
                       then Some (mk_listed id (timestamp (metadata entry))
                                            (source (metadata entry))
                                            (status (metadata entry)))
                       else None) (map_to_list dir))
    by apply merge_sort_Permutation.
  set (f := fun '(id, entry) =>
              if match filter_ with
                 | None => true
                 | Some s => bool_decide (status (metadata entry) = s)
                 end
              then Some (mk_listed id (timestamp (metadata entry))
                                   (source (metadata entry))
                                   (status (metadata entry)))
              else None) in Hperm.
  assert (Hsub : l_id <$> omap f (map_to_list dir) `sublist_of` (map_to_list dir).*1).
  { apply listed_ids_sublist.
    intros [id e] x. subst f. cbn beta iota. destruct filter_ as [s|].
    - case_bool_decide; [|discriminate]. by intros [= <-].
    - by intros [= <-]. }
  split; [|split; [|split]].
  - rewrite Hperm. eapply sublist_NoDup; [|exact Hsub]. apply NoDup_fst_map_to_list.
  - apply StronglySorted_merge_sort; apply _.
  - rewrite Hperm. apply sublist_length in Hsub.
    by rewrite !length_fmap, length_map_to_list in Hsub.
  - intros ->. rewrite Hperm, <- length_map_to_list. clear Hsub Hperm. subst f.
    induction (map_to_list dir) as [|[id e] kvs IH]; [reflexivity|].
    cbn [omap list_omap length]. by rewrite IH.
Qed.

(** ** [preview_merge_changes] against [approve_staged_entry] *)

Lemma merge_into_kb_files (kb0 : KB) (parsed : ContentBundle) (name_hint : option string) :
  (merge_into_kb kb0 parsed name_hint).1
  = mk_kb (merge_cv parsed name_hint (cv_json kb0)).1
          (merge_collection (fun p => p) (projects parsed) (projects_json kb0)).1
          (merge_collection normalize_patent (patents parsed) (patents_json kb0)).1
          (merge_collection normalize_cert (certifications parsed)
             (certifications_json kb0)).1.
Proof.
  unfold merge_into_kb.
  by destruct (merge_cv _ _ _), (merge_collection _ (projects parsed) _),
    (merge_collection _ (patents parsed) _),
    (merge_collection _ (certifications parsed) _).
Qed.

Lemma truthy_or_nil {A} (l : list A) : (if truthy l then l else []) = l.
Proof. by destruct l. Qed.

(** X13. What [preview_merge_changes] shows for a record that is not yet
    approved is what [approve_staged_entry] then merges: the projects as
    shown; the patents and certifications shown, in their stored form; the
    experience entries.  The summary, which the preview lists as one more
    change of [cv.json], is not an entry and is not counted: the counts of
    the merge summary are the numbers of experience entries, projects,
    patents and certifications. *)
Theorem preview_foretells_approval (st : State) (stage_id : string) (now : instant)
    (e : StageEntry) :
  staging_dir st !! stage_id = Some e ->
  status (metadata e) <> Approved ->
  exists changes approval st',
    preview_merge_changes (staging_dir st) stage_id = Ok changes
    /\ approve_staged_entry st stage_id now = (st', Ok approval)
    /\ cv_changes changes
       = experience (content e)
         ++ (if truthy_str (summary (content e))
             then [Obj [("summary", Str (summary (content e)))]] else [])
    /\ cv_entries (cv_json (kb st'))
       = cv_entries (cv_json (kb st)) ++ experience (content e)
    /\ collection_entries (projects_json (kb st'))
       = collection_entries (projects_json (kb st)) ++ projects_changes changes
    /\ collection_entries (patents_json (kb st'))
       = collection_entries (patents_json (kb st))
         ++ map normalize_patent (patents_changes changes)
    /\ collection_entries (certifications_json (kb st'))
       = collection_entries (certifications_json (kb st))
         ++ map normalize_cert (certifications_changes changes)
    /\ a_merge_summary approval
       = mk_summary (length (experience (content e))) (length (projects_changes changes))
                    (length (patents_changes changes))
                    (length (certifications_changes changes)).
Proof.
  intros Hl Hst.
  unfold preview_merge_changes, get_staged_entry. rewrite Hl.
  rewrite (StagingSpec.approve_staged_entry_unfold st stage_id now e Hl).
  rewrite bool_decide_eq_false_2 by exact Hst.
  eexists _, _, _. split; [reflexivity|]. split; [reflexivity|].
  cbn [cv_changes projects_changes patents_changes certifications_changes
       kb a_merge_summary].
  rewrite !truthy_or_nil, merge_into_kb_files.
  cbn [cv_json projects_json patents_json certifications_json].
  split; [|split; [|split; [|split; [|split]]]].
  - destruct (experience (content e)), (truthy_str (summary (content e))); reflexivity.
  - apply KbIngestSpec.merge_cv_entries.
  - rewrite KbIngestSpec.merge_collection_entries. by rewrite map_id.
  - apply KbIngestSpec.merge_collection_entries.
  - apply KbIngestSpec.merge_collection_entries.
  - apply KbIngestSpec.merge_into_kb_summary.
Qed.

(** ** A record that is not there *)

(** X14. On an id under which the staging directory holds no record,
    [preview_merge_changes], [approve_staged_entry] and
    [reject_staged_entry] raise the [ValueError] "No staged entry found with
    ID: <id>", and neither the directory nor the knowledge base changes;
    [get_staged_entry] returns [None]. *)
Theorem missing_record_raises (st : State) (stage_id reason : string) (now : instant) :
  staging_dir st !! stage_id = None ->
  get_staged_entry (staging_dir st) stage_id = None
  /\ preview_merge_changes (staging_dir st) stage_id = Raise (not_found stage_id)
  /\ approve_staged_entry st stage_id now = (st, Raise (not_found stage_id))
  /\ reject_staged_entry (staging_dir st) stage_id reason now
     = (staging_dir st, Raise (not_found stage_id)).
Proof.
  intros Hl.
  unfold preview_merge_changes, approve_staged_entry, reject_staged_entry,
    get_staged_entry.
  by rewrite Hl.
Qed.

(** ** [cleanup_old_entries], again *)

(** X15. A second [cleanup_old_entries] at the same instant and with the
    same age limit finds nothing to delete: it returns 0 and leaves the
    directory as the first one left it. *)
Theorem cleanup_old_entries_twice (dir : gmap string StageEntry) (max_age_days : Z)
    (now : instant) :
  let r := cleanup_old_entries dir max_age_days now in
  cleanup_old_entries r.1 max_age_days now = (r.1, 0).
Proof.
  intros r. set (dir' := r.1).
  assert (Hsame : (cleanup_old_entries dir' max_age_days now).1 = dir').
  { apply map_eq. intros id. subst dir' r.
    rewrite !StagingSpec.cleanup_old_entries_lookup.
    destruct (dir !! id) as [e|]; [|reflexivity].
    destruct (unlinks max_age_days now e) eqn:Eu; [reflexivity|]. by rewrite Eu. }
  pose proof (StagingSpec.cleanup_loop_count max_age_days now (map_to_list dir') dir' 0
                (NoDup_fst_map_to_list dir')
                (fun k e H => proj1 (elem_of_map_to_list dir' k e) H)) as Hcount.
  fold (cleanup_old_entries dir' max_age_days now) in Hcount.
  cbn zeta in Hcount. rewrite Hsame in Hcount.
  destruct (cleanup_old_entries dir' max_age_days now) as [d n].
  cbn [fst snd] in *. subst d. f_equal. lia.
Qed.

(** ** What no later call changes *)

Section WithDigest.
Context {digest : IdDigest}.

Lemma same_submission_refl (e : StageEntry) : same_submission e e.
Proof. by repeat split. Qed.

Lemma step_keeps_submission (st : State) (op : Op) (id : string) (e' : StageEntry) :
  is_stage op = false ->
  staging_dir (step st op) !! id = Some e' ->
  exists e, staging_dir st !! id = Some e /\ same_submission e e'.
Proof.
  intros Hop Hl. destruct op as [| | | |sid now|sid reason now|m now];
    try discriminate; cbn [step] in Hl.
  - exists e'. split; [exact Hl | apply same_submission_refl].
  - exists e'. split; [exact Hl | apply same_submission_refl].
  - exists e'. split; [exact Hl | apply same_submission_refl].
  - destruct (staging_dir st !! sid) as [e0|] eqn:E0.
    + rewrite (StagingSpec.approve_staged_entry_unfold st sid now e0 E0) in Hl.
      case_bool_decide;
        [exists e'; split; [exact Hl | apply same_submission_refl]|].
      cbn [fst staging_dir] in Hl.
      destruct (decide (id = sid)) as [->|Hne].
      * rewrite lookup_insert_eq in Hl. injection Hl as <-.
        exists e0. split; [exact E0 | by repeat split].
      * rewrite lookup_insert_ne in Hl by done.
        exists e'. split; [exact Hl | apply same_submission_refl].
    + unfold approve_staged_entry, get_staged_entry in Hl. rewrite E0 in Hl.
      exists e'. split; [exact Hl | apply same_submission_refl].
  - cbn [staging_dir] in Hl.
    destruct (staging_dir st !! sid) as [e0|] eqn:E0.
    + rewrite (StagingSpec.reject_staged_entry_unfold _ sid reason now e0 E0) in Hl.
      case_bool_decide;
        [exists e'; split; [exact Hl | apply same_submission_refl]|].
      cbn [fst] in Hl.
      destruct (decide (id = sid)) as [->|Hne].
      * rewrite lookup_insert_eq in Hl. injection Hl as <-.
        exists e0. split; [exact E0 | by repeat split].
      * rewrite lookup_insert_ne in Hl by done.
        exists e'. split; [exact Hl | apply same_submission_refl].
    + unfold reject_staged_entry, get_staged_entry in Hl. rewrite E0 in Hl.
      exists e'. split; [exact Hl | apply same_submission_refl].
  - cbn [staging_dir] in Hl. rewrite StagingSpec.cleanup_old_entries_lookup in Hl.
    destruct (staging_dir st !! id) as [e0|]; [|discriminate].
    destruct (unlinks m now e0); [discriminate|]. injection Hl as <-.
    exists e0. split; [reflexivity | apply same_submission_refl].
Qed.

(** X16. Only staging writes a bundle.  Through any sequence of calls
    that stages nothing (look-ups, listings, previews, approvals,
    rejections, clean-ups) no record appears, and a record that is still
    there holds the bundle, the timestamp and the source it was staged
    with: approving and rejecting rewrite the status fields only. *)
Theorem run_keeps_submission (st : State) (ops : list Op) (id : string)
    (e' : StageEntry) :
  forallb (fun op => negb (is_stage op)) ops = true ->
  staging_dir (run st ops) !! id = Some e' ->
  exists e, staging_dir st !! id = Some e /\ same_submission e e'.
Proof.
  revert st. induction ops as [|op ops IH]; intros st Hops Hl.
  - exists e'. split; [exact Hl | apply same_submission_refl].
  - cbn [forallb] in Hops. apply andb_prop in Hops as [Hop Hops].
    apply negb_true_iff in Hop.
    change (run st (op :: ops)) with (run (step st op) ops) in Hl.
    destruct (IH _ Hops Hl) as (e1 & Hl1 & Hc1 & Ht1 & Hs1).
    destruct (step_keeps_submission st op id e1 Hop Hl1) as (e & Hl0 & Hc0 & Ht0 & Hs0).
    exists e. split; [exact Hl0|]. repeat split; congruence.
Qed.

End WithDigest.

(** ** Runs on a concrete staging area *)

Local Open Scope Z_scope.

Lemma preview_foretells_approval_witness :
  exists changes approval st',
    preview_merge_changes dir_staged demo_id = Ok changes
    /\ approve_staged_entry (mk_state dir_staged empty_kb) demo_id 1 = (st', Ok approval)
    /\ projects_changes changes = [compiler_project]
    /\ collection_entries (projects_json (kb st')) = [compiler_project]
    /\ projects_added (a_merge_summary approval) = 1%nat.
Proof.
  assert (Hold : staging_dir (mk_state dir_staged empty_kb) !! demo_id
                 = Some (fresh_entry demo_bundle demo_source 0))
    by (vm_compute; reflexivity).
  destruct (preview_foretells_approval (mk_state dir_staged empty_kb) demo_id 1 _
              Hold ltac:(discriminate))
    as (changes & approval & st' & Hprev & Happ & _ & _ & Hproj & _ & _ & Hsum).
  exists changes, approval, st'.
  assert (Hch : projects_changes changes = [compiler_project]).
  { cbn [staging_dir] in Hprev.
    assert (Hp : preview_merge_changes dir_staged demo_id
                 = Ok (mk_changes [] [compiler_project] [] []))
      by (vm_compute; reflexivity).
    rewrite Hp in Hprev. by injection Hprev as <-. }
  split; [exact Hprev|]. split; [exact Happ|]. split; [exact Hch|].
  split.
  - rewrite Hproj, Hch. reflexivity.
  - rewrite Hsum, Hch. reflexivity.
Defined.

Lemma missing_record_raises_witness :
  approve_staged_entry (mk_state ∅ empty_kb) "0123456789ab" 1
  = (mk_state ∅ empty_kb, Raise (not_found "0123456789ab")).
Proof.
  exact (proj1 (proj2 (proj2 (missing_record_raises (mk_state ∅ empty_kb)
                                "0123456789ab" "unused" 1 (lookup_empty _))))).
Defined.

Lemma run_keeps_submission_witness :
  exists e, dir_staged !! demo_id = Some e
            /\ same_submission e
                 (approved_entry
                    (rejected_entry (fresh_entry demo_bundle demo_source 0) "not mine" 1) 2).
Proof.
  apply (run_keeps_submission (digest := empty_text_digest)
           (mk_state dir_staged empty_kb)
           [Reject demo_id "not mine" 1; Preview demo_id; Approve demo_id 2; Cleanup 30 5]
           demo_id).
  - reflexivity.
  - vm_compute. reflexivity.
Defined.

End StagingMore.

(* ===================================================================== *)
(** * [ingest_files]: what is gathered, and where it goes *)
(* ===================================================================== *)

Module IngestSpec.
Import Json KbIngest Staging StagingData Ingest IngestData.
Import Py (result, Ok, Raise, ValueError).
Local Open Scope string_scope.
Local Open Scope list_scope.

Section WithFiles.
Context {digest : IdDigest}.
Variable read_and_parse : string -> FileOutcome.
Variable fetch_linkedin_profile : string -> LinkedIn.

Lemma read_files_spec (file_paths : list string) (parsed_content : ContentBundle)
    (warnings : list string) :
  read_files read_and_parse file_paths parsed_content warnings
  = (foldl absorb parsed_content (parsed_of read_and_parse file_paths),
     warnings ++ warnings_of read_and_parse file_paths).
Proof.
  revert parsed_content warnings.
  induction file_paths as [|fp rest IH]; intros parsed_content warnings.
  - cbn. by rewrite app_nil_r.
  - cbn [read_files parsed_of warnings_of omap list_omap].
    destruct (read_and_parse fp) as [c|e].
    + rewrite IH. reflexivity.
    + rewrite IH. fold (warnings_of read_and_parse rest).
      fold (parsed_of read_and_parse rest). by rewrite <- app_assoc.
Qed.

Lemma foldl_absorb (acc : ContentBundle) (l : list ContentBundle) :
  foldl absorb acc l
  = mk_bundle (experience acc ++ concat (experience <$> l))
              (projects acc ++ concat (projects <$> l))
              (patents acc ++ concat (patents <$> l))
              (certifications acc ++ concat (certifications <$> l))
              (foldl (fun a s => if truthy_str s then s else a) (summary acc)
                     (summary <$> l)).
Proof.
  revert acc. induction l as [|c l IH]; intros acc.
  - cbn. rewrite !app_nil_r. by destruct acc.
  - cbn [foldl fmap list_fmap concat]. rewrite IH.
    cbn [absorb experience projects patents certifications summary].
    by rewrite <- !app_assoc.
Qed.

Lemma outcomes_length (file_paths : list string) :
  length (warnings_of read_and_parse file_paths)
  + length (parsed_of read_and_parse file_paths) = length file_paths.
Proof.
  induction file_paths as [|fp rest IH]; [reflexivity|].
  cbn [parsed_of warnings_of omap list_omap].
  fold (warnings_of read_and_parse rest). fold (parsed_of read_and_parse rest).
  destruct (read_and_parse fp); cbn [length]; lia.
Qed.

(** What the files alone give. *)
Lemma gather_files (file_paths : list string) :
  gather read_and_parse fetch_linkedin_profile file_paths None
  = (files_bundle read_and_parse file_paths, warnings_of read_and_parse file_paths, None).
Proof.
  unfold gather. rewrite read_files_spec, foldl_absorb. reflexivity.
Qed.

(** X17. A direct [ingest_files] without a LinkedIn URL merges one bundle
    made of the files that could be read: each of its four lists is the
    lists of those files one after the other, in the order of the call, and
    its summary is the last summary that is not empty.  A file that fails
    gives one warning and nothing else; the staging area is not touched. *)
Theorem ingest_files_direct (st : State) (file_paths : list string)
    (name_hint : option string) (now : instant) :
  let parsed := files_bundle read_and_parse file_paths in
  let warnings := warnings_of read_and_parse file_paths in
  ingest_files read_and_parse fetch_linkedin_profile st file_paths None name_hint
    false now
  = (mk_state (staging_dir st) (merge_into_kb (kb st) parsed name_hint).1,
     Merged (merge_into_kb (kb st) parsed name_hint).2 warnings None)
  /\ length warnings + length (parsed_of read_and_parse file_paths) = length file_paths
  /\ cv_added (merge_into_kb (kb st) parsed name_hint).2
     = length (concat (experience <$> parsed_of read_and_parse file_paths)).
Proof.
  intros parsed warnings. subst parsed warnings. split; [|split].
  - unfold ingest_files. rewrite gather_files. cbn beta iota zeta.
    by destruct (merge_into_kb _ _ _).
  - apply outcomes_length.
  - by rewrite KbIngestSpec.merge_into_kb_summary.
Qed.

(** X18. Staging then approving is the direct merge without the name
    hint.  In staging mode [ingest_files] leaves the knowledge base alone
    and writes one pending record, stamped with the time of the call, whose
    source keeps the paths, the URL and the name hint; approving that record
    gives the knowledge base and the merge summary of a direct call on the
    same files with no name hint: the hint of a staged call is never used
    for the name in [cv.json]. *)
Theorem ingest_files_staged_then_approved (st : State) (file_paths : list string)
    (linkedin_url name_hint : option string) (now later : instant) :
  let staged := ingest_files read_and_parse fetch_linkedin_profile st file_paths
                  linkedin_url name_hint true now in
  let direct := ingest_files read_and_parse fetch_linkedin_profile st file_paths
                  linkedin_url None false now in
  exists stage_id parsed warnings linkedin merge_summary,
    staged.2 = Staged stage_id warnings linkedin staged_message
    /\ kb staged.1 = kb st
    /\ staging_dir staged.1 !! stage_id
       = Some (fresh_entry parsed (source_info file_paths linkedin_url name_hint) now)
    /\ (forall id, id <> stage_id -> staging_dir staged.1 !! id = staging_dir st !! id)
    /\ direct.2 = Merged merge_summary warnings linkedin
    /\ staging_dir direct.1 = staging_dir st
    /\ approve_staged_entry staged.1 stage_id later
       = (mk_state (<[stage_id := approved_entry
                        (fresh_entry parsed
                           (source_info file_paths linkedin_url name_hint) now) later]>
                      (staging_dir staged.1))
                   (kb direct.1),
          Ok (mk_approval stage_id later merge_summary)).
Proof.
  intros staged direct. subst staged direct. unfold ingest_files.
  destruct (gather _ _ _ _) as [[parsed warnings] linkedin].
  unfold stage_parsed_content. fold (fresh_entry parsed
    (source_info file_paths linkedin_url name_hint) now).
  set (e := fresh_entry parsed (source_info file_paths linkedin_url name_hint) now).
  set (id := generate_stage_id e).
  destruct (merge_into_kb (kb st) parsed None) as [kb' merge_summary] eqn:Em.
  cbn [fst snd kb staging_dir].
  exists id, parsed, warnings, linkedin, merge_summary.
  split; [reflexivity|]. split; [reflexivity|].
  split; [apply lookup_insert_eq|].
  split; [intros id' Hne; by apply lookup_insert_ne|].
  split; [reflexivity|]. split; [reflexivity|].
  rewrite (StagingSpec.approve_staged_entry_unfold _ id later e)
    by apply lookup_insert_eq.
  rewrite bool_decide_eq_false_2 by discriminate.
  cbn [kb staging_dir]. change (content e) with parsed. by rewrite Em.
Qed.

(** X19. LinkedIn data only fills gaps.  With a URL, the bundle that is
    merged has the projects, patents and certifications of the files; its
    experience is that of the files, followed by one entry made of the
    headline only when the files give no experience at all; its summary is
    that of the files unless they give none.  When the profile comes back
    with an [error], or the URL is empty, the bundle is that of the files. *)
Theorem ingest_files_linkedin_fills_gaps (st : State) (file_paths : list string)
    (url : string) (name_hint : option string) (now : instant) :
  let files := files_bundle read_and_parse file_paths in
  let profile := fetch_linkedin_profile url in
  exists parsed,
    ingest_files read_and_parse fetch_linkedin_profile st file_paths (Some url)
      name_hint false now
    = (mk_state (staging_dir st) (merge_into_kb (kb st) parsed name_hint).1,
       Merged (merge_into_kb (kb st) parsed name_hint).2
              (warnings_of read_and_parse file_paths)
              (if truthy_str url then Some profile else None))
    /\ projects parsed = projects files
    /\ patents parsed = patents files
    /\ certifications parsed = certifications files
    /\ (exists headline, experience parsed = experience files ++ headline
          /\ (headline = []
              \/ (experience files = []
                  /\ exists h, li_headline profile = Some h
                               /\ headline = [Obj [("title", Str h)]])))
    /\ (summary parsed = summary files
        \/ (summary files = EmptyString /\ li_about profile = Some (summary parsed)))
    /\ (truthy_str url = false \/ li_error profile <> None -> parsed = files).
Proof.
  intros files profile.
  unfold ingest_files, gather. rewrite read_files_spec, foldl_absorb.
  cbn [experience projects patents certifications summary app].
  fold (last_nonempty (summary <$> parsed_of read_and_parse file_paths)).
  fold (files_bundle read_and_parse file_paths). fold files. cbn [get_truthy default].
  destruct (truthy_str url) eqn:Eurl.
  - fold profile. exists (merge_linkedin files profile). split.
    { by destruct (merge_into_kb _ _ _). }
    unfold merge_linkedin.
    destruct (li_truthy profile && negb (present (li_error profile))) eqn:Eok.
    + apply andb_prop in Eok as [_ Herr]. apply negb_true_iff in Herr.
      destruct (negb (truthy_str (summary files)) && get_truthy (li_about profile))
        eqn:Eabout;
      destruct (get_truthy (li_headline profile) && negb (truthy (experience _)))
        eqn:Ehead;
      cbn [experience projects patents certifications summary] in *;
      (split; [reflexivity|]); (split; [reflexivity|]); (split; [reflexivity|]).
      * apply andb_prop in Eabout as [Hs Ha]. apply andb_prop in Ehead as [Hh He].
        split; [|split].
        -- eexists. split; [reflexivity|]. right.
           destruct (li_headline profile) as [h|]; [|discriminate].
           split; [|by exists h].
           apply negb_true_iff in He. by destruct (experience files).
        -- right. apply negb_true_iff in Hs.
           destruct (li_about profile) as [a|]; [|discriminate]. split; [|reflexivity].
           unfold truthy_str in Hs. apply negb_false_iff, String.eqb_eq in Hs. exact Hs.
        -- intros [?|Hne]; [discriminate|]. by destruct (li_error profile).
      * apply andb_prop in Eabout as [Hs Ha].
        split; [|split].
        -- exists []. split; [by rewrite app_nil_r | by left].
        -- right. apply negb_true_iff in Hs.
           destruct (li_about profile) as [a|]; [|discriminate]. split; [|reflexivity].
           unfold truthy_str in Hs. apply negb_false_iff, String.eqb_eq in Hs. exact Hs.
        -- intros [?|Hne]; [discriminate|]. by destruct (li_error profile).
      * apply andb_prop in Ehead as [Hh He].
        split; [|split].
        -- eexists. split; [reflexivity|]. right.
           destruct (li_headline profile) as [h|]; [|discriminate].
           split; [|by exists h].
           apply negb_true_iff in He. by destruct (experience files).
        -- by left.
        -- intros [?|Hne]; [discriminate|]. by destruct (li_error profile).
      * split; [|split].
        -- exists []. split; [by rewrite app_nil_r | by left].
        -- by left.
        -- intros [?|Hne]; [discriminate|]. by destruct (li_error profile).
    + repeat split; try reflexivity.
      * exists []. split; [by rewrite app_nil_r | by left].
      * by left.
  - exists files. split.
    { by destruct (merge_into_kb _ _ _). }
    repeat split; try reflexivity.
    + exists []. split; [by rewrite app_nil_r | by left].
    + by left.
Qed.

End WithFiles.

(** A run: two files that are read and one that is not, merged directly
    into an empty knowledge base. *)
Example ingest_files_run :
  let r := ingest_files (digest := empty_text_digest) demo_read demo_fetch
             (mk_state ∅ empty_kb) ["cv.txt"; "US123.pdf"; "projects.txt"]
             (Some "https://www.linkedin.com/in/someone") (Some "Ada") false 0%Z in
  r.2 = Merged (mk_summary 1 1 0 0)
               ["Failed to extract US123.pdf: File not found: US123.pdf"]
               (Some gated_profile)
  /\ cv_json (kb r.1)
     = Loaded (mk_cv (Some (Str "Ada")) (Some [Obj [("title", Str "Engineer")]])
                     (Some (Str "Builds compilers")))
  /\ collection_entries (projects_json (kb r.1)) = [Obj [("title", Str "Compiler")]]
  /\ staging_dir r.1 = ∅.
Proof. repeat split. Qed.

End IngestSpec.
